(** * NSE delivery breakout scanner: a shallow embedding of [nse_delivery.py]

    The script has three parts: a trading calendar
    ([get_last_trading_days]), a per-date record cache in front of the
    exchange archive ([get_delivery_data]) and the breakout analysis of the
    module body (concatenate, filter by index membership, group, join,
    threshold, rank).  Each part is embedded below as executable
    definitions, followed by the properties proved about them. *)

From stdpp Require Import gmap strings list sorting pretty.
From Stdlib Require Import ZArith QArith Qround Qpower Lqa Ascii Sorted Permutation.

Open Scope Z_scope.

(** ** Exceptions and results

    Python code either returns or raises.  [Ok] is a normal return; [Raise]
    carries the exception class.  [OutOfFuel] is not a Python exception: it
    is the answer of a loop model whose iteration budget is spent, and it is
    shown below never to leave [get_last_trading_days]. *)

Inductive exn :=
| OverflowError
| KeyError
| ValueError
| TypeError
| IndexError
| OutOfFuel.

Inductive result (A : Type) :=
| Ok (a : A)
| Raise (e : exn).
Arguments Ok {A} a.
Arguments Raise {A} e.

Definition bind {A B : Type} (m : result A) (k : A -> result B) : result B :=
  match m with
  | Ok a => k a
  | Raise e => Raise e
  end.

Notation "'let*' x ':=' m 'in' k" := (bind m (fun x => k))
  (at level 10, x name, m at level 100, k at level 200).

(** ** Calendar dates

    A [datetime.date] is its proleptic Gregorian ordinal
    ([date.toordinal()]): day 1 is 0001-01-01, a Monday, and the largest
    date, 9999-12-31, is day 3652059.  [weekday] is [date.weekday()]
    (Monday is 0, Sunday is 6).  Subtracting a [timedelta] raises
    [OverflowError] when the result leaves the range. *)

Definition date := Z.

Definition MINORDINAL : Z := 1.
Definition MAXORDINAL : Z := 3652059.

Definition valid_date (d : date) : Prop := MINORDINAL <= d <= MAXORDINAL.

Definition weekday (d : date) : Z := (d + 6) mod 7.

Definition date_sub_days (d : date) (k : Z) : result date :=
  let o := d - k in
  if (MINORDINAL <=? o) && (o <=? MAXORDINAL) then Ok o else Raise OverflowError.

(** ** [sorted] on dates: a stable insertion sort in ascending order *)

Fixpoint insert_date (d : date) (l : list date) : list date :=
  match l with
  | [] => [d]
  | x :: xs => if d <? x then d :: x :: xs else x :: insert_date d xs
  end.

Fixpoint sorted_dates (l : list date) : list date :=
  match l with
  | [] => []
  | x :: xs => insert_date x (sorted_dates xs)
  end.

(** ** [get_last_trading_days]

<<
    today = dt.date.today()
    days = []
    current = today - dt.timedelta(days=1)
    while len(days) < n:
        if current.weekday() < 5:
            days.append(current)
        current -= dt.timedelta(days=1)
    return sorted(days)
>>
    [today] is the reading of the system clock, taken as a parameter.
    [trading_days_loop] is the [while] loop on the state [(days, current)];
    every iteration moves [current] one day towards day 1, so [today]
    iterations are a budget the loop cannot spend. *)

Fixpoint trading_days_loop (fuel : nat) (n : Z) (days : list date) (current : date)
  : result (list date) :=
  if Z.of_nat (length days) <? n then
    match fuel with
    | O => Raise OutOfFuel
    | S fuel' =>
        let days' := if weekday current <? 5 then days ++ [current] else days in
        let* current' := date_sub_days current 1 in
        trading_days_loop fuel' n days' current'
    end
  else Ok days.

Definition get_last_trading_days (n : Z) (today : date) : result (list date) :=
  let* current := date_sub_days today 1 in
  let* days := trading_days_loop (Z.to_nat today) n [] current in
  Ok (sorted_dates days).

(** ** Numbers

    A pandas numeric column holds IEEE binary64 values.  The embedding keeps
    the special values ([NaN], which pandas uses for "missing", and the two
    infinities) and their arithmetic, and takes the finite values as exact
    rationals kept in lowest terms: share counts and their sums are integers
    far below 2^53, on which binary64 arithmetic is exact.  Sums, means and
    the product of the threshold are computed exactly; the ratio of a report
    row is computed as the machine does, with the quotient and [round(2)] in
    binary64 ([div64], [round2_64] below).  The sign of zero is not
    modelled. *)

Inductive num :=
| Fin (q : Q)
| PInf
| NInf
| NaN.

Definition is_nan (x : num) : bool :=
  match x with NaN => true | _ => false end.

Definition num_neg (x : num) : num :=
  match x with
  | Fin q => Fin (Qred (- q))
  | PInf => NInf
  | NInf => PInf
  | NaN => NaN
  end.

(** An infinity scaled by the sign of a finite factor. *)
Definition signed_inf (q : Q) (pos : num) : num :=
  match (q ?= 0)%Q with
  | Gt => pos
  | Lt => num_neg pos
  | Eq => NaN
  end.

Definition num_add (x y : num) : num :=
  match x, y with
  | NaN, _ | _, NaN => NaN
  | Fin a, Fin b => Fin (Qred (a + b))
  | PInf, NInf | NInf, PInf => NaN
  | PInf, _ | _, PInf => PInf
  | NInf, _ | _, NInf => NInf
  end.

Definition num_mul (x y : num) : num :=
  match x, y with
  | NaN, _ | _, NaN => NaN
  | Fin a, Fin b => Fin (Qred (a * b))
  | Fin a, PInf | PInf, Fin a => signed_inf a PInf
  | Fin a, NInf | NInf, Fin a => signed_inf a NInf
  | PInf, PInf | NInf, NInf => PInf
  | PInf, NInf | NInf, PInf => NInf
  end.

Definition num_div (x y : num) : num :=
  match x, y with
  | NaN, _ | _, NaN => NaN
  | Fin a, Fin b =>
      if Qeq_bool b 0 then signed_inf a PInf else Fin (Qred (a / b))
  | Fin _, _ => Fin 0
  | PInf, Fin b => if Qle_bool 0 b then PInf else NInf
  | NInf, Fin b => if Qle_bool 0 b then NInf else PInf
  | _, _ => NaN
  end.

(** [x < y]; every comparison with [NaN] is false. *)
Definition num_ltb (x y : num) : bool :=
  match x, y with
  | NaN, _ | _, NaN => false
  | Fin a, Fin b => negb (Qle_bool b a)
  | _, NInf => false
  | NInf, _ => true
  | PInf, _ => false
  | _, PInf => true
  end.

Definition num_gtb (x y : num) : bool := num_ltb y x.

Definition num_leb (x y : num) : bool :=
  match x, y with
  | NaN, _ | _, NaN => false
  | _, _ => negb (num_ltb y x)
  end.

(** [numpy.rint]: the nearest integer, halves to the even one. *)
Definition rint (q : Q) : Z :=
  let f := Qfloor q in
  match (q - inject_Z f ?= 1 # 2)%Q with
  | Lt => f
  | Gt => f + 1
  | Eq => if Z.even f then f else f + 1
  end.

(** ** Binary64 rounding

    A binary64 operation returns the exact result rounded to the nearest
    number with a significand of 53 bits, halves to the even significand;
    below 2^-1022 the spacing stays at 2^-1074, and a result that rounds to
    2^1024 or more is an infinity.  The sign of a zero is not kept. *)

(** The integer part of the binary logarithm of a positive rational. *)
Definition Qlog2 (x : Q) : Z :=
  let l := Z.log2 (Qnum x) - Z.log2 (Z.pos (Qden x)) in
  if Qle_bool (2 ^ l) x then l else l - 1.

(** The exponent of the spacing of the binary64 numbers around [x]. *)
Definition ulp_exponent (x : Q) : Z := Z.max (Qlog2 x - 52) (-1074).

(** The multiple of the spacing nearest to [x]. *)
Definition nearest (x : Q) : Q :=
  (inject_Z (rint (x / 2 ^ ulp_exponent x)) * 2 ^ ulp_exponent x)%Q.

Definition b64_pos (x : Q) : num :=
  let y := nearest x in
  if Qle_bool (2 ^ 1024) y then PInf else Fin (Qred y).

(** The binary64 number that stands for the exact result [x]. *)
Definition b64 (x : Q) : num :=
  match (x ?= 0)%Q with
  | Eq => Fin 0
  | Gt => b64_pos x
  | Lt => num_neg (b64_pos (- x))
  end.

Definition round64 (x : num) : num :=
  match x with Fin q => b64 q | _ => x end.

Definition mul64 (x y : num) : num := round64 (num_mul x y).

Definition div64 (x y : num) : num := round64 (num_div x y).

Definition rint64 (x : num) : num :=
  match x with Fin q => Fin (inject_Z (rint q)) | _ => x end.

(** [Series.round(2)] is numpy's [round]: multiply by 100, [rint], divide by
    100, each in binary64. *)
Definition round2_64 (x : num) : num :=
  div64 (rint64 (mul64 x (Fin 100))) (Fin 100).

(** ** Text

    A Python [str] is taken as ASCII text: a string of the embedding stands
    for the [str] with the same code points, all below 128.  On such text
    [strip] removes, at both ends, the characters for which [str.isspace]
    holds (tab to carriage return, the four separators 28 to 31, and the
    space), [upper] maps the letters [a] to [z], and [replace(" ", "_")]
    changes the spaces.  Column labels of the exchange files are ASCII; the
    properties that depend on what these methods return are stated for
    ASCII labels. *)

Definition is_space (c : ascii) : bool :=
  let n := Ascii.N_of_ascii c in
  ((9 <=? n) && (n <=? 13))%N || ((28 <=? n) && (n <=? 32))%N.

Fixpoint lstrip (s : string) : string :=
  match s with
  | EmptyString => EmptyString
  | String c s' => if is_space c then lstrip s' else s
  end.

Fixpoint rstrip (s : string) : string :=
  match s with
  | EmptyString => EmptyString
  | String c s' =>
      match rstrip s' with
      | EmptyString => if is_space c then EmptyString else String c EmptyString
      | t => String c t
      end
  end.

Definition str_strip (s : string) : string := rstrip (lstrip s).

Definition upper_char (c : ascii) : ascii :=
  let n := Ascii.N_of_ascii c in
  if ((97 <=? n) && (n <=? 122))%N then Ascii.ascii_of_N (n - 32) else c.

Fixpoint str_upper (s : string) : string :=
  match s with
  | EmptyString => EmptyString
  | String c s' => String (upper_char c) (str_upper s')
  end.

Fixpoint str_replace_space (s : string) : string :=
  match s with
  | EmptyString => EmptyString
  | String c s' =>
      String (if Ascii.eqb c " "%char then "_"%char else c) (str_replace_space s')
  end.

(** [df.columns.str.strip().str.upper().str.replace(" ", "_")] on one label. *)
Definition normalize_label (s : string) : string :=
  str_replace_space (str_upper (str_strip s)).

(** ** [pd.to_numeric(..., errors='coerce')] on a text field

    pandas reads the text with its own [strtod]: blanks of the C kind (tab
    to carriage return, and the space), an optional sign, digits with an
    optional point among them (one digit at least), an optional exponent
    ([e] or [E], an optional sign, one digit at least), and blanks again up
    to the end.  A text that is not of this form is a number only when it is
    one of the spellings of infinity, in any case and without blanks; every
    other text is coerced to [NaN].  The value is kept exact, as all finite
    numbers are here: literals beyond the precision or the range of binary64
    are outside the embedding. *)

Definition is_c_space (c : ascii) : bool :=
  let n := Ascii.N_of_ascii c in
  ((9 <=? n) && (n <=? 13))%N || (n =? 32)%N.

Fixpoint skip_spaces (s : string) : string :=
  match s with
  | EmptyString => EmptyString
  | String c s' => if is_c_space c then skip_spaces s' else s
  end.

Definition digit_of (c : ascii) : option Z :=
  let n := Z.of_N (Ascii.N_of_ascii c) in
  if (48 <=? n) && (n <=? 57) then Some (n - 48) else None.

(** Reads the digits at the front of [s]: their value on top of [acc], how
    many there were, and the rest of the text. *)
Fixpoint read_digits (s : string) (acc : Z) (k : nat) : Z * nat * string :=
  match s with
  | EmptyString => (acc, k, s)
  | String c s' =>
      match digit_of c with
      | Some d => read_digits s' (10 * acc + d) (S k)
      | None => (acc, k, s)
      end
  end.

(** An optional sign: whether it is a minus, and the rest of the text. *)
Definition read_sign (s : string) : bool * string :=
  match s with
  | String c s' =>
      if Ascii.eqb c "-"%char then (true, s')
      else if Ascii.eqb c "+"%char then (false, s')
      else (false, s)
  | EmptyString => (false, s)
  end.

(** The part after the mantissa: an exponent, when [e] or [E] is followed
    by digits, and blanks up to the end.  An [e] without digits is not
    consumed, and the text is then no number. *)
Definition read_exponent (s : string) : Z * string :=
  match s with
  | String c s' =>
      if Ascii.eqb c "e"%char || Ascii.eqb c "E"%char then
        let '(negative, s1) := read_sign s' in
        let '(n, k, s2) := read_digits s1 0 0 in
        match k with
        | O => (0, s)
        | S _ => (if negative then - n else n, s2)
        end
      else (0, s)
  | EmptyString => (0, s)
  end.

Definition pow10 (e : Z) : Q :=
  if 0 <=? e then inject_Z (10 ^ e) else 1 / inject_Z (10 ^ (- e)).

(** The text after the sign. *)
Definition parse_unsigned (s : string) : option Q :=
  let '(ip, k, s1) := read_digits s 0 0 in
  let '(all, kf, s2) :=
    match s1 with
    | String c s1' =>
        if Ascii.eqb c "."%char then read_digits s1' ip 0 else (ip, O, s1)
    | EmptyString => (ip, O, s1)
    end in
  match (k + kf)%nat with
  | O => None
  | S _ =>
      let '(e, s3) := read_exponent s2 in
      match skip_spaces s3 with
      | EmptyString => Some (inject_Z all * pow10 (e - Z.of_nat kf))%Q
      | _ => None
      end
  end.

Definition parse_number (s : string) : option Q :=
  let '(negative, s1) := read_sign (skip_spaces s) in
  (fun q : Q => if negative then (- q)%Q else q) <$> parse_unsigned s1.

Definition lower_char (c : ascii) : ascii :=
  let n := Ascii.N_of_ascii c in
  if ((65 <=? n) && (n <=? 90))%N then Ascii.ascii_of_N (n + 32) else c.

Fixpoint str_lower (s : string) : string :=
  match s with
  | EmptyString => EmptyString
  | String c s' => String (lower_char c) (str_lower s')
  end.

(** The spellings of infinity that pandas accepts when its [strtod] fails. *)
Definition parse_infinity (s : string) : option num :=
  let t := str_lower s in
  if String.eqb t "inf" || String.eqb t "+inf"
     || String.eqb t "infinity" || String.eqb t "+infinity" then Some PInf
  else if String.eqb t "-inf" || String.eqb t "-infinity" then Some NInf
  else None.

Definition to_numeric_text (s : string) : num :=
  match parse_number s with
  | Some q => Fin (Qred q)
  | None => default NaN (parse_infinity s)
  end.

(** ** Data frames

    A [DataFrame] is its column labels and its rows; a row pairs every label
    with the cell stored under it.  A cell is a number (with [NaN] for a
    missing value), a text, or a [datetime.date] object. *)

Inductive cell :=
| CNum (v : num)
| CStr (s : string)
| CDate (d : date).

Definition row := list (string * cell).

Record frame := mkFrame {
  columns : list string;
  rows : list row
}.

Definition has_label (c : string) (l : list string) : bool :=
  existsb (String.eqb c) l.

Definition count_label (c : string) (l : list string) : nat :=
  length (List.filter (String.eqb c) l).

Fixpoint row_get (c : string) (r : row) : option cell :=
  match r with
  | [] => None
  | (k, v) :: r' => if String.eqb k c then Some v else row_get c r'
  end.

(** The cells of a row that stand under label [c]. *)
Definition cells_under (c : string) (r : row) : list cell :=
  map snd (List.filter (fun kv => String.eqb (fst kv) c) r).

Definition row_replace (c : string) (v : cell) (r : row) : row :=
  map (fun kv => if String.eqb (fst kv) c then (fst kv, v) else kv) r.

(** [df[c] = v] on one row: every cell labelled [c] is overwritten; a frame
    without the label gets a new last column. *)
Definition row_set (c : string) (v : cell) (r : row) : row :=
  if has_label c (map fst r) then row_replace c v r else r ++ [(c, v)].

Definition frame_set (c : string) (v : cell) (df : frame) : frame :=
  {| columns := if has_label c (columns df) then columns df else columns df ++ [c];
     rows := map (row_set c v) (rows df) |}.

Fixpoint row_apply (c : string) (f : cell -> result cell) (r : row) : result row :=
  match r with
  | [] => Ok []
  | (k, v) :: r' =>
      let* v' := (if String.eqb k c then f v else Ok v) in
      let* r'' := row_apply c f r' in
      Ok ((k, v') :: r'')
  end.

Fixpoint rows_apply (c : string) (f : cell -> result cell) (l : list row)
  : result (list row) :=
  match l with
  | [] => Ok []
  | r :: l' =>
      let* r' := row_apply c f r in
      let* l'' := rows_apply c f l' in
      Ok (r' :: l'')
  end.

(** [df[c] = f(df[c])]: selecting a label the frame does not have raises
    [KeyError]; a label carried by several columns selects a frame instead
    of a series, which the converters reject with [TypeError]. *)
Definition frame_apply (c : string) (f : cell -> result cell) (df : frame)
  : result frame :=
  match count_label c (columns df) with
  | O => Raise KeyError
  | S O =>
      let* rows' := rows_apply c f (rows df) in
      Ok {| columns := columns df; rows := rows' |}
  | _ => Raise TypeError
  end.

(** [df.columns = df.columns.str.strip().str.upper().str.replace(" ", "_")] *)
Definition normalize_columns (df : frame) : frame :=
  {| columns := map normalize_label (columns df);
     rows := map (map (fun kv => (normalize_label (fst kv), snd kv))) (rows df) |}.

(** [pd.to_numeric(series, errors='coerce')] on one cell. *)
Definition to_numeric (c : cell) : result cell :=
  match c with
  | CNum v => Ok (CNum v)
  | CStr s => Ok (CNum (to_numeric_text s))
  | CDate _ => Ok (CNum NaN)
  end.

(** ** The analysis of the module body

    [pd.concat(all_data, ignore_index=True)] stacks the rows of the frames; a
    frame without some label leaves those cells missing, which is what
    [row_get] answers for an absent label. *)

Definition TRADING_DAYS_LOOKBACK : Z := 30.

Definition concat (all_data : list frame) : list row :=
  flat_map rows all_data.

Definition concat_columns (all_data : list frame) : list string :=
  flat_map columns all_data.

Definition symbol_of (r : row) : option string :=
  match row_get "SYMBOL" r with
  | Some (CStr s) => Some s
  | _ => None
  end.

(** The [DELIV_QTY] of a row as a number; anything else counts as missing. *)
Definition deliv_qty_of (r : row) : num :=
  match row_get "DELIV_QTY" r with
  | Some (CNum v) => v
  | _ => NaN
  end.

(** [final_df['SYMBOL'].isin(nifty500_symbols)] on one row. *)
Definition isin (nifty500_symbols : list string) (r : row) : bool :=
  match symbol_of r with
  | Some s => existsb (String.eqb s) nifty500_symbols
  | None => false
  end.

(** [final_df['DATE'] == yesterday] on one row. *)
Definition date_is (d : date) (r : row) : bool :=
  match row_get "DATE" r with
  | Some (CDate d') => d' =? d
  | _ => false
  end.

(** [groupby('SYMBOL')['DELIV_QTY'].mean()]: one pass over the rows keeps,
    for each symbol, the sum and the number of the values that are not
    [NaN]; the mean of a group is their quotient, and [NaN] when the group
    has no such value.  Rows without a symbol belong to no group. *)
Definition group_add (acc : gmap string (num * Z)) (r : row) : gmap string (num * Z) :=
  match symbol_of r with
  | None => acc
  | Some s =>
      let '(sumx, nobs) := default (Fin 0, 0) (acc !! s) in
      let v := deliv_qty_of r in
      if is_nan v then <[s := (sumx, nobs)]> acc
      else <[s := (num_add sumx v, nobs + 1)]> acc
  end.

Definition group_mean (g : num * Z) : num :=
  let '(sumx, nobs) := g in
  if nobs =? 0 then NaN else num_div sumx (Fin (inject_Z nobs)).

Definition groupby_mean (df : list row) : gmap string num :=
  group_mean <$> foldl group_add ∅ df.

Record merged_row := mkMerged {
  m_SYMBOL : string;
  m_DELIV_QTY : num;
  m_AVG_30_DELIV_QTY : num
}.

(** [pd.merge(yesterday_df[['SYMBOL', 'DELIV_QTY']], avg_delivery,
    on='SYMBOL', how='inner')]: the keys of the right side are unique, so
    every left row with a key on the right gives one row, in the order of
    the left side. *)
Definition merge_row (avg_delivery : gmap string num) (r : row) : option merged_row :=
  match symbol_of r with
  | None => None
  | Some s =>
      match avg_delivery !! s with
      | None => None
      | Some a =>
          Some {| m_SYMBOL := s; m_DELIV_QTY := deliv_qty_of r;
                  m_AVG_30_DELIV_QTY := a |}
      end
  end.

Definition merge (yesterday_df : list row) (avg_delivery : gmap string num)
  : list merged_row :=
  omap (merge_row avg_delivery) yesterday_df.

(** [merged['DELIV_QTY'] > 3 * merged['AVG_30_DELIV_QTY']] *)
Definition spike (m : merged_row) : bool :=
  num_gtb (m_DELIV_QTY m) (num_mul (Fin 3) (m_AVG_30_DELIV_QTY m)).

Record candidate := mkCandidate {
  SYMBOL : string;
  DELIV_QTY : num;
  AVG_30_DELIV_QTY : num;
  RATIO : num
}.

Definition with_ratio (m : merged_row) : candidate :=
  {| SYMBOL := m_SYMBOL m;
     DELIV_QTY := m_DELIV_QTY m;
     AVG_30_DELIV_QTY := m_AVG_30_DELIV_QTY m;
     RATIO := round2_64 (div64 (m_DELIV_QTY m) (m_AVG_30_DELIV_QTY m)) |}.

(** [sort_values(by='RATIO', ascending=False)].  pandas sets the [NaN] keys
    aside for the end, reverses the rest, sorts it in ascending order and
    reverses the outcome.  The ascending sort is numpy's introsort, which in
    its portable form handles runs of up to 16 keys by the insertion sort
    below: the keys are taken from left to right and each one moves left
    past the keys greater than it.  Only the order among equal keys depends
    on this choice; the sort never looks at another column. *)
Fixpoint insert_by_ratio (c : candidate) (l : list candidate) : list candidate :=
  match l with
  | [] => [c]
  | x :: xs =>
      if num_ltb (RATIO c) (RATIO x) then c :: x :: xs
      else x :: insert_by_ratio c xs
  end.

Definition argsort_ratio (l : list candidate) : list candidate :=
  foldl (fun sorted c => insert_by_ratio c sorted) [] l.

Definition sort_values_desc (l : list candidate) : list candidate :=
  let non_nans := List.filter (fun c => negb (is_nan (RATIO c))) l in
  let nans := List.filter (fun c => is_nan (RATIO c)) l in
  rev (argsort_ratio (rev non_nans)) ++ nans.

Definition quote : string := String "034"%char EmptyString.

(** The spreadsheet formula that replaces the symbol in the report. *)
Definition hyperlink (x : string) : string :=
  "=HYPERLINK(" +:+ quote +:+ "https://www.tradingview.com/chart/?symbol=NSE:" +:+ x
    +:+ quote +:+ ", " +:+ quote +:+ x +:+ quote +:+ ")".

Definition with_hyperlink (c : candidate) : candidate :=
  {| SYMBOL := hyperlink (SYMBOL c);
     DELIV_QTY := DELIV_QTY c;
     AVG_30_DELIV_QTY := AVG_30_DELIV_QTY c;
     RATIO := RATIO c |}.

(** The stages of the module body from [final_df] on.  [universe_rows] is
    [final_df] after the index filter, [breakouts] is [result] as selected
    by the threshold, [ranked] is [result] after the sort. *)
Definition universe_rows (nifty500_symbols : list string) (all_data : list frame)
  : list row :=
  List.filter (isin nifty500_symbols) (concat all_data).

Definition yesterday_rows (yesterday : date) (final_df : list row) : list row :=
  List.filter (date_is yesterday) final_df.

Definition merged (yesterday : date) (final_df : list row) : list merged_row :=
  merge (yesterday_rows yesterday final_df) (groupby_mean final_df).

Definition breakouts (yesterday : date) (final_df : list row) : list merged_row :=
  List.filter spike (merged yesterday final_df).

Definition ranked (yesterday : date) (final_df : list row) : list candidate :=
  sort_values_desc (map with_ratio (breakouts yesterday final_df)).

(** What a run ends with: the two messages, or the report written under the
    name of the latest trading day. *)
Inductive outcome :=
| NoDeliveryData
| NoBreakouts
| Report (yesterday : date) (table : list candidate).

Definition analyse (nifty500_symbols : list string) (trading_days : list date)
    (all_data : list frame) : result outcome :=
  match all_data with
  | [] => Ok NoDeliveryData
  | _ =>
      if negb (has_label "SYMBOL" (concat_columns all_data)) then Raise KeyError
      else
        let final_df := universe_rows nifty500_symbols all_data in
        match last trading_days with
        | None => Raise IndexError
        | Some yesterday =>
            if negb (has_label "DATE" (concat_columns all_data)) then Raise KeyError
            else if negb (has_label "DELIV_QTY" (concat_columns all_data))
            then Raise KeyError
            else
              match ranked yesterday final_df with
              | [] => Ok NoBreakouts
              | result => Ok (Report yesterday (map with_hyperlink result))
              end
        end
  end.

(** ** What a frame looks like after the date stamp

    [stamped d df]: the frame has a [DATE] column and every cell under that
    label is the date [d].  [dated_only d r]: moreover no other cell of the
    row is a date object. *)

Definition is_date (c : cell) : bool :=
  match c with CDate _ => true | _ => false end.

Definition stamped_row (d : date) (r : row) : Prop :=
  row_get "DATE" r = Some (CDate d) /\
  Forall (fun c => c = CDate d) (cells_under "DATE" r).

Definition stamped (d : date) (df : frame) : Prop :=
  has_label "DATE" (columns df) = true /\ Forall (stamped_row d) (rows df).

Definition no_date_cells (df : frame) : Prop :=
  Forall (Forall (fun kv : string * cell => is_date (snd kv) = false)) (rows df).

Definition dated_only (d : date) (r : row) : Prop :=
  Forall (fun kv : string * cell =>
            if String.eqb (fst kv) "DATE" then snd kv = CDate d
            else is_date (snd kv) = false) r.

(** A CSV file holds text: a frame comes back from it with every date
    object turned into its text [isoformat d]. *)
Definition cell_as_text (isoformat : date -> string) (c : cell) : cell :=
  match c with
  | CDate d => CStr (isoformat d)
  | _ => c
  end.

Definition dates_as_text (isoformat : date -> string) (df : frame) : frame :=
  {| columns := columns df;
     rows := map (map (fun kv => (fst kv, cell_as_text isoformat (snd kv)))) (rows df) |}.

(** ** The provider and the cache

    [archive] is the exchange archive: the answer to a request for one date,
    with its HTTP status and body.  [file] is the content of a CSV body or
    file; [read_csv] and [to_csv] are pandas' reader and writer, and
    [to_datetime] is [pd.to_datetime(x).date()] on one cell.  The log folder
    holds one file per date, under a name that is an injective function of
    the date ([%Y%m%d]), so the folder is a map from dates to files.  Every
    HTTP request is recorded in [requests].  The pauses ([time.sleep]) and
    the progress messages are left out. *)

Inductive request :=
| GetHome
| GetArchive (d : date).

Section Scanner.

Variable file : Type.
Variable read_csv : file -> result frame.
Variable to_csv : frame -> file.
Variable to_datetime : cell -> result date.

Record response := mkResponse {
  status_code : Z;
  text : file
}.

Record world := mkWorld {
  files : gmap date file;
  requests : list request
}.

Definition parse_date_cell (c : cell) : result cell :=
  let* d := to_datetime c in Ok (CDate d).

(** The download branch after the status check: parse, normalise the
    labels, coerce the two quantity columns, stamp the date. *)
Definition normalize_payload (date : date) (body : file) : result frame :=
  let* df := read_csv body in
  let df := normalize_columns df in
  let* df := frame_apply "DELIV_QTY" to_numeric df in
  let* df := frame_apply "TTL_TRD_QNTY" to_numeric df in
  Ok (frame_set "DATE" (CDate date) df).

(** The cache branch: read the file and turn the [DATE] texts back into
    date objects. *)
Definition load_from_disk (f : file) : result frame :=
  let* df := read_csv f in
  frame_apply "DATE" parse_date_cell df.

Definition get_delivery_data (archive : date -> response) (date : date) (w : world)
  : result (option frame) * world :=
  match files w !! date with
  | Some f =>
      (let* df := load_from_disk f in Ok (Some df), w)
  | None =>
      let w1 := {| files := files w;
                   requests := requests w ++ [GetHome; GetArchive date] |} in
      let response := archive date in
      if negb (status_code response =? 200) then (Ok None, w1)
      else
        match normalize_payload date (text response) with
        | Raise e => (Raise e, w1)
        | Ok df =>
            (Ok (Some df),
             {| files := <[date := to_csv df]> (files w1);
                requests := requests w1 |})
        end
  end.

(** The download loop of the module body:
<<
    for d in trading_days:
        df = get_delivery_data(d)
        if df is not None:
            all_data.append(df)
>>
*)
Fixpoint fetch_all (archive : date -> response) (trading_days : list date) (w : world)
  : result (list frame) * world :=
  match trading_days with
  | [] => (Ok [], w)
  | d :: ds =>
      match get_delivery_data archive d w with
      | (Raise e, w') => (Raise e, w')
      | (Ok None, w') => fetch_all archive ds w'
      | (Ok (Some df), w') =>
          match fetch_all archive ds w' with
          | (Raise e, w'') => (Raise e, w'')
          | (Ok all_data, w'') => (Ok (df :: all_data), w'')
          end
      end
  end.

(** The module body.  [nifty500_symbols] is what [get_nifty500_symbols]
    returned and [today] the reading of the clock. *)
Definition main (nifty500_symbols : list string) (today : date)
    (archive : date -> response) (w : world) : result outcome * world :=
  match get_last_trading_days TRADING_DAYS_LOOKBACK today with
  | Raise e => (Raise e, w)
  | Ok trading_days =>
      match fetch_all archive trading_days w with
      | (Raise e, w') => (Raise e, w')
      | (Ok all_data, w') => (analyse nifty500_symbols trading_days all_data, w')
      end
  end.

(** The log folder is in order when every file that loads carries, in each
    row, the date it is filed under. *)
Definition cache_ok_at (w : world) (d : date) : Prop :=
  forall f df, files w !! d = Some f -> load_from_disk f = Ok df -> stamped d df.

Definition cache_ok (w : world) : Prop := forall d, cache_ok_at w d.

End Scanner.

Arguments mkResponse {file}.
Arguments status_code {file}.
Arguments text {file}.
Arguments mkWorld {file}.
Arguments files {file}.
Arguments requests {file}.

(** * Specification vocabulary

    Predicates and reference definitions used to state the properties. *)

(** What the loop has collected when [current] is the next day to look at:
    weekdays between [current] and [today], each appended day earlier than
    the ones before it. *)
Definition walked (today current : date) (days : list date) : Prop :=
  Forall (fun d => current < d < today /\ weekday d < 5) days /\
  StronglySorted Z.gt days.

(** The days of the week end still to be crossed before the walk meets a
    weekday: two on a Sunday, one on a Saturday. *)
Definition weekend_ahead (d : date) : Z :=
  if weekday d <? 5 then 0 else weekday d - 4.

(** [has_symbol s r]: the row belongs to symbol [s]. *)
Definition has_symbol (s : string) (r : row) : bool :=
  match symbol_of r with
  | Some s' => String.eqb s' s
  | None => false
  end.

(** The [DELIV_QTY] values of all the records of symbol [s], in row order. *)
Definition values_of (s : string) (df : list row) : list num :=
  map deliv_qty_of (List.filter (has_symbol s) df).

Definition present (vals : list num) : list num :=
  List.filter (fun v => negb (is_nan v)) vals.

(** The mean in the words of the specification: the sum of the values that
    are not missing over their number, and missing when there is none. *)
Definition nanmean (vals : list num) : num :=
  match present vals with
  | [] => NaN
  | xs => num_div (foldl num_add (Fin 0) xs) (Fin (inject_Z (Z.of_nat (length xs))))
  end.

Definition spec_avgDeliveredQty (s : string) (df : list row) : num :=
  nanmean (values_of s df).

(** One observation added to the running sum and count of a group. *)
Definition observe (g : num * Z) (v : num) : num * Z :=
  if is_nan v then g else (num_add (fst g) v, snd g + 1).

Definition ratio_le (a b : candidate) : Prop :=
  num_leb (RATIO a) (RATIO b) = true.

(** Order of the report: the later row has no ratio, or a ratio that is at
    most the ratio of the earlier row. *)
Definition ratio_desc (a b : candidate) : Prop :=
  is_nan (RATIO b) = true \/ num_leb (RATIO b) (RATIO a) = true.

(** How often symbol [s] occurs in a table. *)
Definition occurrences (s : string) (table : list candidate) : nat :=
  length (List.filter (fun c => String.eqb (SYMBOL c) s) table).

Definition has_ratio (c : candidate) : Prop := is_nan (RATIO c) = false.

(** The order the specification asks of the report: ratio descending, and
    symbol ascending among equal ratios. *)
Definition ratio_then_symbol (a b : candidate) : Prop :=
  num_ltb (RATIO b) (RATIO a) = true \/
  (RATIO a = RATIO b /\ String.leb (SYMBOL a) (SYMBOL b) = true).

(** A latest-day record of symbol [s] that passes the threshold against the
    average [a]. *)
Definition spiking_record (s : string) (a : num) (r : row) : bool :=
  has_symbol s r && num_gtb (deliv_qty_of r) (num_mul (Fin 3) a).

(** ** Sample data

    Frames as [get_delivery_data] returns them, cut down to the three
    columns the analysis reads. *)

Definition record_row (sym : string) (v : num) (d : date) : row :=
  [("SYMBOL", CStr sym); ("DELIV_QTY", CNum v); ("DATE", CDate d)].

Definition day_frame (d : date) (l : list (string * num)) : frame :=
  {| columns := ["SYMBOL"; "DELIV_QTY"; "DATE"];
     rows := map (fun sv => record_row (fst sv) (snd sv) d) l |}.

Definition window (days : list date) (records : list (list (string * num)))
  : list frame :=
  zip_with day_frame days records.

(** The thirty trading days before Wednesday 2026-11-04 (day 739924). *)
Definition sample_days : list date :=
  [739882; 739883; 739884; 739887; 739888; 739889; 739890; 739891; 739894;
   739895; 739896; 739897; 739898; 739901; 739902; 739903; 739904; 739905;
   739908; 739909; 739910; 739911; 739912; 739915; 739916; 739917; 739918;
   739919; 739922; 739923].

Definition one_symbol (sym : string) (values : list Q) : list (list (string * num)) :=
  map (fun v => [(sym, Fin v)]) values.

(** Thirty days of [X] that average 1000, ending on 3500 and on 3000. *)
Definition window_3500 : list frame :=
  window sample_days
    (one_symbol "X" (replicate 23 914 ++ replicate 6 913 ++ [3500])%Q).

Definition window_3000 : list frame :=
  window sample_days
    (one_symbol "X" (replicate 28 931 ++ [932; 3000])%Q).

(** Ten days of [B] and [A], in this order in every file, with the same
    quantities. *)
Definition window_tie : list frame :=
  window (drop 20 sample_days)
    (replicate 9 [("B", Fin 100); ("A", Fin 100)]
       ++ [[("B", Fin 1000); ("A", Fin 1000)]]).

(** The same ten days with [A] before [B] in every file. *)
Definition window_tie_mirrored : list frame :=
  window (drop 20 sample_days)
    (replicate 9 [("A", Fin 100); ("B", Fin 100)]
       ++ [[("A", Fin 1000); ("B", Fin 1000)]]).

(** Ten days of [X], listed twice on the latest day (two series). *)
Definition window_twice : list frame :=
  window (drop 20 sample_days)
    (replicate 9 [("X", Fin 100)] ++ [[("X", Fin 1000); ("X", Fin 1200)]]).

(** Two days of [X] whose quantities cancel, next to a symbol [C] without a
    single quantity and a symbol [Z] outside the index. *)
Definition window_zero : list frame :=
  window (drop 28 sample_days)
    [[("X", Fin (-700)); ("C", NaN); ("Z", Fin 1)];
     [("X", Fin 700); ("C", NaN); ("Z", Fin 900)]].

(** ** A concrete reader, writer and provider for the samples

    Files are kept as parsed tables; the writer turns date objects into
    their ISO text ([YYYY-MM-DD]) and [sample_to_datetime] reads that text
    back.  The conversions between ordinals and civil dates are the usual
    era-based ones. *)

Definition civil_of_ordinal (o : Z) : Z * Z * Z :=
  let z := o - 719163 + 719468 in
  let era := z / 146097 in
  let doe := z - era * 146097 in
  let yoe := (doe - doe / 1460 + doe / 36524 - doe / 146096) / 365 in
  let doy := doe - (365 * yoe + yoe / 4 - yoe / 100) in
  let mp := (5 * doy + 2) / 153 in
  let d := doy - (153 * mp + 2) / 5 + 1 in
  let m := if mp <? 10 then mp + 3 else mp - 9 in
  let y := yoe + era * 400 + (if m <=? 2 then 1 else 0) in
  (y, m, d).

Definition ordinal_of_civil (y m d : Z) : Z :=
  let y := if m <=? 2 then y - 1 else y in
  let era := y / 400 in
  let yoe := y - era * 400 in
  let doy := (153 * (if 2 <? m then m - 3 else m + 9) + 2) / 5 + d - 1 in
  let doe := yoe * 365 + yoe / 4 - yoe / 100 + doy in
  era * 146097 + doe - 719468 + 719163.

Definition digit_char (n : Z) : ascii :=
  Ascii.ascii_of_N (Z.to_N (48 + n mod 10)).

Definition two_digits (n : Z) (rest : string) : string :=
  String (digit_char (n / 10)) (String (digit_char n) rest).

Definition sample_isoformat (d : date) : string :=
  let '(y, m, dd) := civil_of_ordinal d in
  two_digits (y / 100)
    (two_digits y (String "-" (two_digits m (String "-" (two_digits dd EmptyString))))).

Definition two_digits_value (a b : ascii) : option Z :=
  match digit_of a, digit_of b with
  | Some x, Some y => Some (10 * x + y)
  | _, _ => None
  end.

Definition parse_iso (s : string) : option date :=
  match s with
  | String y1 (String y2 (String y3 (String y4 (String h1
      (String m1 (String m2 (String h2 (String d1 (String d2 EmptyString))))))))) =>
      if Ascii.eqb h1 "-" && Ascii.eqb h2 "-" then
        match two_digits_value y1 y2, two_digits_value y3 y4,
              two_digits_value m1 m2, two_digits_value d1 d2 with
        | Some c, Some y, Some m, Some d => Some (ordinal_of_civil (100 * c + y) m d)
        | _, _, _, _ => None
        end
      else None
  | _ => None
  end.

Definition sample_to_datetime (c : cell) : result date :=
  match c with
  | CDate d => Ok d
  | CStr s =>
      match parse_iso s with
      | Some d => Ok d
      | None => Raise ValueError
      end
  | CNum _ => Raise ValueError
  end.

Definition sample_read_csv (f : frame) : result frame := Ok f.

Definition sample_to_csv (df : frame) : frame := dates_as_text sample_isoformat df.

(** The body of the archive for one day: one record of [X], with the labels
    as the exchange spells them and a date column of its own that comes to
    be labelled [DATE]. *)
Definition sample_body (qty : string) : frame :=
  {| columns := ["SYMBOL"; " SERIES"; " Date"; " DELIV_QTY"; " TTL_TRD_QNTY"];
     rows := [[("SYMBOL", CStr "X"); (" SERIES", CStr " EQ");
               (" Date", CStr " 31-Dec-1999"); (" DELIV_QTY", CStr qty);
               (" TTL_TRD_QNTY", CStr " 9000")]] |}.

(** An archive that has every day but the latest of [sample_days], with a
    spike on the day before. *)
Definition sample_archive (d : date) : response frame :=
  if d =? 739923 then {| status_code := 404; text := sample_body "N/A" |}
  else if d =? 739922 then {| status_code := 200; text := sample_body " 90000" |}
  else {| status_code := 200; text := sample_body " 1000" |}.

(** An archive that has the latest day as well. *)
Definition full_archive (d : date) : response frame :=
  {| status_code := 200; text := sample_body " 1000" |}.

Definition empty_folder : world frame :=
  {| files := ∅; requests := [] |}.

(** The first fetch of day 739923 into an empty folder, and the frame it
    returns. *)
Definition first_fetch : result (option frame) * world frame :=
  get_delivery_data frame sample_read_csv sample_to_csv sample_to_datetime
    full_archive 739923 empty_folder.

Definition fetched_frame : frame :=
  {| columns := ["SYMBOL"; "SERIES"; "DATE"; "DELIV_QTY"; "TTL_TRD_QNTY"];
     rows := [[("SYMBOL", CStr "X"); ("SERIES", CStr " EQ");
               ("DATE", CDate 739923); ("DELIV_QTY", CNum (Fin 1000));
               ("TTL_TRD_QNTY", CNum (Fin 9000))]] |}.

(** The download loop of a run on 2026-11-04 against [sample_archive]. *)
Definition sample_run : result (list frame) * world frame :=
  fetch_all frame sample_read_csv sample_to_csv sample_to_datetime
    sample_archive sample_days empty_folder.

Definition sample_all_data : list frame :=
  match fst sample_run with
  | Ok all_data => all_data
  | Raise _ => []
  end.


(** ** Vocabulary for the further properties *)

(** The day has no file in the log folder. *)
Definition uncached {file : Type} (w : world file) (d : date) : bool :=
  match files w !! d with
  | None => true
  | Some _ => false
  end.

(** The two requests of one download. *)
Definition download_requests (d : date) : list request :=
  [GetHome; GetArchive d].


(** The number a cell is coerced to. *)
Definition coerced (c : cell) : cell :=
  match c with
  | CNum v => CNum v
  | CStr s => CNum (to_numeric_text s)
  | CDate _ => CNum NaN
  end.

Definition row_coerce (c : string) (r : row) : row :=
  map (fun kv => if String.eqb (fst kv) c then (fst kv, coerced (snd kv)) else kv) r.

(** A row under the normalised labels. *)
Definition normalize_row (r : row) : row :=
  map (fun kv => (normalize_label (fst kv), snd kv)) r.

Definition is_number (c : cell) : bool :=
  match c with CNum _ => true | _ => false end.


(** Text, character by character. *)
Fixpoint string_map (f : ascii -> ascii) (s : string) : string :=
  match s with
  | EmptyString => EmptyString
  | String c s' => String (f c) (string_map f s')
  end.

Fixpoint string_forall (p : ascii -> bool) (s : string) : bool :=
  match s with
  | EmptyString => true
  | String c s' => p c && string_forall p s'
  end.

(** ASCII text, and a frame whose labels are ASCII text. *)
Definition is_ascii (c : ascii) : bool := (Ascii.N_of_ascii c <? 128)%N.

Definition ascii_text (s : string) : bool := string_forall is_ascii s.

Definition ascii_labels (df : frame) : bool := forallb ascii_text (columns df).

(** What normalisation does to one character of a stripped label. *)
Definition label_char (c : ascii) : ascii :=
  let u := upper_char c in if Ascii.eqb u " "%char then "_"%char else u.

Definition is_lower (c : ascii) : bool :=
  let n := Ascii.N_of_ascii c in ((97 <=? n) && (n <=? 122))%N.

(** A character a normalised label can hold: no blank of the space kind and
    no lower-case letter. *)
Definition normal_char (c : ascii) : bool :=
  negb (Ascii.eqb c " "%char) && negb (is_lower c).

Definition starts_clean (s : string) : bool :=
  match s with
  | EmptyString => true
  | String c _ => negb (is_space c)
  end.

Fixpoint ends_clean (s : string) : bool :=
  match s with
  | EmptyString => true
  | String c EmptyString => negb (is_space c)
  | String _ s' => ends_clean s'
  end.


(** ** [get_nifty500_symbols] and the script as a whole

<<
    response = session.get(url)
    df = pd.read_csv(io.StringIO(response.text))
    df.columns = df.columns.str.strip().str.upper()
    return df['SYMBOL'].tolist()
>>
    The function asks for the home page and then for the list, and parses
    the body it gets without reading the status.  Its labels are stripped
    and upper-cased, with their inner blanks kept.  The ways it fails: the
    reader raises, no label is [SYMBOL] ([KeyError]), or several are (the
    selection is then a frame, which has no [tolist]: [AttributeError]). *)

Inductive universe_error :=
| UnreadableList (e : exn)
| NoSymbolColumn
| SeveralSymbolColumns.

Definition upper_strip (s : string) : string := str_upper (str_strip s).

Definition upper_strip_row (r : row) : row :=
  map (fun kv => (upper_strip (fst kv), snd kv)) r.

Definition upper_strip_columns (df : frame) : frame :=
  {| columns := map upper_strip (columns df);
     rows := map upper_strip_row (rows df) |}.

(** [df[c].tolist()]: one cell for each row, a missing one where the row has
    none under the label. *)
Definition column_tolist (c : string) (df : frame) : universe_error + list cell :=
  match count_label c (columns df) with
  | O => inl NoSymbolColumn
  | S O => inr (map (fun r => default (CNum NaN) (row_get c r)) (rows df))
  | _ => inl SeveralSymbolColumns
  end.

Definition get_nifty500_symbols {file : Type} (read_csv : file -> result frame)
    (index_list : response file) : universe_error + list cell :=
  match read_csv (text index_list) with
  | Raise e => inl (UnreadableList e)
  | Ok df => column_tolist "SYMBOL" (upper_strip_columns df)
  end.

(** The texts of the list.  [isin] compares cells, and the symbol of a
    record that reaches the averages is a text, so only the texts of the
    list can match it. *)
Definition symbol_texts (cells : list cell) : list string :=
  omap (fun c => match c with CStr s => Some s | _ => None end) cells.

Inductive script_result :=
| IndexListFailed (e : universe_error)
| Ran (r : result outcome).

(** The module body from its first call on: the index list, the calendar,
    the downloads, the analysis. *)
Definition script {file : Type} (read_csv : file -> result frame)
    (to_csv : frame -> file) (to_datetime : cell -> result date)
    (index_list : response file) (today : date)
    (archive : date -> response file) (w : world file)
  : script_result * world file :=
  match get_nifty500_symbols read_csv index_list with
  | inl e => (IndexListFailed e, w)
  | inr cells =>
      let '(r, w') :=
        main file read_csv to_csv to_datetime (symbol_texts cells) today archive w in
      (Ran r, w')
  end.

(** An index list for the samples: [X] and, with a blank in front, [Y]. *)
Definition sample_index_list : response frame :=
  {| status_code := 503;
     text := {| columns := ["Company Name"; " symbol "];
                rows := [[("Company Name", CStr "Ex Ltd"); (" symbol ", CStr "X")];
                         [("Company Name", CStr "Why Ltd"); (" symbol ", CStr " Y")]] |} |}.

Definition broken_index_list : response frame :=
  {| status_code := 200;
     text := {| columns := ["html"]; rows := [[("html", CStr "denied")]] |} |}.


(** An archive that serves no day, and one whose body has no [DELIV_QTY]. *)
Definition dead_archive (d : date) : response frame :=
  {| status_code := 404; text := sample_body "N/A" |}.

Definition body_without_quantity : frame :=
  {| columns := ["SYMBOL"; " TTL_TRD_QNTY"];
     rows := [[("SYMBOL", CStr "X"); (" TTL_TRD_QNTY", CStr " 9000")]] |}.

Definition archive_without_quantity (d : date) : response frame :=
  {| status_code := 200; text := body_without_quantity |}.

(** A complete run against [full_archive], and a folder with one file. *)
Definition full_run : result (list frame) * world frame :=
  fetch_all frame sample_read_csv sample_to_csv sample_to_datetime
    full_archive sample_days empty_folder.

Definition rerun_on_one_file : result (list frame) * world frame :=
  fetch_all frame sample_read_csv sample_to_csv sample_to_datetime
    sample_archive sample_days (snd first_fetch).


Definition full_all_data : list frame :=
  match fst full_run with
  | Ok all_data => all_data
  | Raise _ => []
  end.

(** The report row of [X] in [window_3500]. *)
Definition sample_candidate : candidate :=
  {| SYMBOL := "X"; DELIV_QTY := Fin 3500; AVG_30_DELIV_QTY := Fin 1000;
     RATIO := Fin (7 # 2) |}.

(** The weekdays strictly between the first day of the calendar and
    [today]: the days from which [get_last_trading_days] can draw. *)
Definition weekdays_before (today : date) : list date :=
  List.filter (fun d => weekday d <? 5) (seqZ 2 (today - 2)).

(** ** A reader that renames repeated labels

    pandas' reader keeps no label twice: going through the header from the
    left, it gives a label [c] that it has met [k] times before the name
    [c.k], and goes on in the same way from that name if it is taken too.
    [counts] is its table of the names met so far; the search for a free
    name moves to a longer name at every step and only over names of the
    table, so the length of the header bounds it. *)
Fixpoint fresh_name (fuel : nat) (counts : gmap string nat) (col : string)
  : string * gmap string nat :=
  match counts !! col with
  | None | Some O => (col, <[col := 1%nat]> counts)
  | Some (S k as cur_count) =>
      match fuel with
      | O => (col, counts)
      | S fuel' =>
          fresh_name fuel' (<[col := S cur_count]> counts)
            (col +:+ "." +:+ pretty cur_count)
      end
  end.

Fixpoint dedup_names_from (fuel : nat) (counts : gmap string nat) (names : list string)
  : list string :=
  match names with
  | [] => []
  | col :: rest =>
      let '(col', counts') := fresh_name fuel counts col in
      col' :: dedup_names_from fuel counts' rest
  end.

Definition dedup_names (names : list string) : list string :=
  dedup_names_from (length names) ∅ names.

(** The reader of the samples with the renaming in front: the cells of a
    row come back under the new names, in the order of the header. *)
Definition renaming_read_csv (f : frame) : result frame :=
  let names := dedup_names (columns f) in
  Ok {| columns := names; rows := map (fun r => zip names (map snd r)) (rows f) |}.

(** A payload with two columns whose labels normalise to [DATE]. *)
Definition body_with_two_dates : frame :=
  {| columns := ["SYMBOL"; " Date"; "DATE"; " DELIV_QTY"; " TTL_TRD_QNTY"];
     rows := [[("SYMBOL", CStr "X"); (" Date", CStr " 31-Dec-1999");
               ("DATE", CStr "31-DEC-1999"); (" DELIV_QTY", CStr " 1000");
               (" TTL_TRD_QNTY", CStr " 9000")]] |}.

Definition archive_with_two_dates (d : date) : response frame :=
  {| status_code := 200; text := body_with_two_dates |}.

(** What the first call returns on that payload, and what the second call
    reads back from the file. *)
Definition frame_with_two_dates : frame :=
  {| columns := ["SYMBOL"; "DATE"; "DATE"; "DELIV_QTY"; "TTL_TRD_QNTY"];
     rows := [[("SYMBOL", CStr "X"); ("DATE", CDate 739923); ("DATE", CDate 739923);
               ("DELIV_QTY", CNum (Fin 1000)); ("TTL_TRD_QNTY", CNum (Fin 9000))]] |}.

Definition frame_with_two_dates_reloaded : frame :=
  {| columns := ["SYMBOL"; "DATE"; "DATE.1"; "DELIV_QTY"; "TTL_TRD_QNTY"];
     rows := [[("SYMBOL", CStr "X"); ("DATE", CDate 739923);
               ("DATE.1", CStr "2026-11-03");
               ("DELIV_QTY", CNum (Fin 1000)); ("TTL_TRD_QNTY", CNum (Fin 9000))]] |}.

(** The threshold test and the ratio of one row with every operation in
    binary64:
<<
    merged['DELIV_QTY'] > 3 * merged['AVG_30_DELIV_QTY']
    (result['DELIV_QTY'] / result['AVG_30_DELIV_QTY']).round(2)
>>
*)
Definition spike64 (q a : num) : bool := num_gtb q (mul64 (Fin 3) a).

Definition ratio64 (q a : num) : num := round2_64 (div64 q a).

(** A label as a careless export could spell it: a file separator (code
    28) in front, lower case, a blank inside, a line feed at the end. *)
Definition untidy_label : string :=
  String "028"%char ("deliv Qty " +:+ String "010"%char EmptyString).

(** * Properties *)

(** ** The trading calendar *)

Section Calendar.

Local Ltac mod7 := unfold weekday in *; Z.to_euclidean_division_equations; lia.

Lemma weekday_bounds d : 0 <= weekday d < 7.
Proof. mod7. Qed.

Lemma weekday_pred d :
  weekday (d - 1) = if weekday d =? 0 then 6 else weekday d - 1.
Proof. destruct (Z.eqb_spec (weekday d) 0); mod7. Qed.

Lemma date_sub_days_Ok d k o :
  date_sub_days d k = Ok o -> o = d - k /\ valid_date o.
Proof.
  unfold date_sub_days, valid_date.
  destruct (Z.leb_spec MINORDINAL (d - k)), (Z.leb_spec (d - k) MAXORDINAL);
    simpl; intros [= <-]; lia.
Qed.

Lemma date_sub_days_in_range d k :
  MINORDINAL <= d - k <= MAXORDINAL -> date_sub_days d k = Ok (d - k).
Proof.
  intros [H1 H2]. unfold date_sub_days.
  apply Z.leb_le in H1, H2. now rewrite H1, H2.
Qed.

Lemma walked_step today current days :
  current < today -> walked today current days ->
  walked today (current - 1)
    (if weekday current <? 5 then days ++ [current] else days).
Proof.
  intros Hc [Hall Hs].
  assert (Hweak : Forall (fun d => current - 1 < d < today /\ weekday d < 5) days).
  { eapply Forall_impl; [exact Hall |]. simpl. intros d [? ?]. split; [lia | done]. }
  destruct (Z.ltb_spec (weekday current) 5); [| by split].
  split.
  - apply Forall_app. split; [done |]. constructor; [| constructor]. lia.
  - apply StronglySorted_app_2; [| done | repeat constructor].
    intros x1 x2 Hx1 Hx2. apply list_elem_of_singleton in Hx2 as ->.
    rewrite Forall_forall in Hall. apply Hall in Hx1. lia.
Qed.

Lemma trading_days_loop_sound today fuel : forall n days current out,
  Z.of_nat (length days) <= n -> current < today -> walked today current days ->
  trading_days_loop fuel n days current = Ok out ->
  Z.of_nat (length out) = n /\
  Forall (fun d => d < today /\ weekday d < 5) out /\
  StronglySorted Z.gt out.
Proof.
  induction fuel as [| fuel IH]; intros n days current out Hlen Hc Hw; simpl;
    destruct (Z.ltb_spec (Z.of_nat (length days)) n) as [Hlt | Hge].
  - discriminate.
  - intros [= <-]. destruct Hw as [Hall Hs]. repeat split; [lia | | done].
    eapply Forall_impl; [exact Hall |]. simpl. intros d [? ?]. split; [lia | done].
  - destruct (date_sub_days current 1) as [c' |] eqn:Hsub; simpl; [| discriminate].
    apply date_sub_days_Ok in Hsub as [-> _].
    apply IH; [| lia | by apply walked_step].
    destruct (weekday current <? 5); [| lia].
    rewrite length_app. simpl. lia.
  - intros [= <-]. destruct Hw as [Hall Hs]. repeat split; [lia | | done].
    eapply Forall_impl; [exact Hall |]. simpl. intros d [? ?]. split; [lia | done].
Qed.

(** Three iterations for each day still missing are enough, and the walk
    stays above day 1 when that many days are left below [current]. *)
Lemma trading_days_loop_returns fuel : forall n days current,
  current <= MAXORDINAL ->
  (Z.of_nat (length days) < n ->
   3 * (n - Z.of_nat (length days)) + weekend_ahead current - 2 <= Z.of_nat fuel /\
   3 * (n - Z.of_nat (length days)) + weekend_ahead current - 2 < current) ->
  exists out, trading_days_loop fuel n days current = Ok out.
Proof.
  induction fuel as [| fuel IH]; intros n days current Hmax Hb; simpl;
    destruct (Z.ltb_spec (Z.of_nat (length days)) n) as [Hlt | Hge]; eauto.
  - destruct (Hb Hlt) as [Hf _]. unfold weekend_ahead in Hf.
    pose proof (weekday_bounds current).
    destruct (weekday current <? 5) eqn:E; [lia |]. apply Z.ltb_ge in E. lia.
  - destruct (Hb Hlt) as [Hf Hcur].
    pose proof (weekday_bounds current) as Hwd.
    assert (Hge1 : 1 <= 3 * (n - Z.of_nat (length days)) + weekend_ahead current - 2).
    { unfold weekend_ahead. destruct (weekday current <? 5) eqn:E; [lia |].
      apply Z.ltb_ge in E. lia. }
    rewrite date_sub_days_in_range by (unfold MINORDINAL; lia). simpl.
    apply IH; [lia |].
    pose proof (weekday_pred current) as Hp.
    unfold weekend_ahead in *.
    destruct (Z.ltb_spec (weekday current) 5) as [Hwk | Hwe].
    + rewrite length_app. simpl. intros Hlt'.
      pose proof (weekday_bounds (current - 1)).
      destruct (Z.ltb_spec (weekday (current - 1)) 5); lia.
    + intros _. destruct (Z.eqb_spec (weekday current) 0); [lia |].
      rewrite Hp. destruct (Z.ltb_spec (weekday current - 1) 5); lia.
Qed.

(** The budget of [today] iterations is never what stops the loop. *)
Lemma trading_days_loop_fuel fuel : forall n days current,
  MINORDINAL <= current <= Z.of_nat fuel ->
  trading_days_loop fuel n days current <> Raise OutOfFuel.
Proof.
  unfold MINORDINAL.
  induction fuel as [| fuel IH]; intros n days current Hc; simpl;
    destruct (Z.of_nat (length days) <? n); try discriminate; [lia |].
  destruct (date_sub_days current 1) as [c' |] eqn:Hsub; simpl.
  - apply date_sub_days_Ok in Hsub as [-> [Hmin _]]. apply IH.
    unfold MINORDINAL in Hmin. lia.
  - unfold date_sub_days in Hsub.
    destruct ((MINORDINAL <=? current - 1) && (current - 1 <=? MAXORDINAL));
      [discriminate | by intros [= ->]].
Qed.

Lemma insert_date_last d l :
  Forall (fun x => x < d) l -> insert_date d l = l ++ [d].
Proof.
  induction 1 as [| x l Hx _ IH]; simpl; [done |].
  destruct (Z.ltb_spec d x); [lia | by rewrite IH].
Qed.

Lemma sorted_dates_descending l :
  StronglySorted Z.gt l -> sorted_dates l = rev l.
Proof.
  induction 1 as [| x l _ IH Hx]; simpl; [done |].
  rewrite IH. apply insert_date_last.
  rewrite Forall_forall in *. intros y Hy.
  apply list_elem_of_In, in_rev, list_elem_of_In, Hx in Hy. lia.
Qed.

Lemma StronglySorted_rev_gt l :
  StronglySorted Z.gt l -> StronglySorted Z.lt (rev l).
Proof.
  induction 1 as [| x l _ IH Hx]; simpl; [constructor |].
  apply StronglySorted_app_2; [| done | repeat constructor].
  intros x1 x2 Hx1 Hx2. apply list_elem_of_singleton in Hx2 as ->.
  rewrite Forall_forall in Hx.
  apply list_elem_of_In, in_rev, list_elem_of_In, Hx in Hx1. lia.
Qed.

Lemma StronglySorted_lt_NoDup l : StronglySorted Z.lt l -> NoDup l.
Proof.
  induction 1 as [| x l _ IH Hx]; constructor; [| done].
  intros Hin. rewrite Forall_forall in Hx. apply Hx in Hin. lia.
Qed.

(** Whatever [get_last_trading_days] returns is as long as asked, strictly
    ascending, before [today] and free of week-end days. *)
Lemma get_last_trading_days_sound n today days :
  0 <= n -> get_last_trading_days n today = Ok days ->
  Z.of_nat (length days) = n /\
  StronglySorted Z.lt days /\
  Forall (fun d => d < today /\ weekday d < 5) days.
Proof.
  intros Hn. unfold get_last_trading_days.
  destruct (date_sub_days today 1) as [current |] eqn:Hsub; simpl; [| discriminate].
  apply date_sub_days_Ok in Hsub as [-> _].
  destruct (trading_days_loop _ n [] (today - 1)) as [out |] eqn:Hloop; simpl;
    [| discriminate].
  intros [= <-].
  apply (trading_days_loop_sound today) in Hloop as (Hlen & Hall & Hs);
    [| simpl; lia | lia | split; constructor].
  rewrite (sorted_dates_descending _ Hs). repeat split.
  - by rewrite length_rev.
  - by apply StronglySorted_rev_gt.
  - rewrite Forall_forall in *. intros d Hd.
    by apply Hall, list_elem_of_In, in_rev, list_elem_of_In.
Qed.

Lemma get_last_trading_days_fuel n today :
  get_last_trading_days n today <> Raise OutOfFuel.
Proof.
  unfold get_last_trading_days.
  destruct (date_sub_days today 1) as [current |] eqn:Hsub; simpl.
  - apply date_sub_days_Ok in Hsub as [-> [Hmin _]].
    pose proof (trading_days_loop_fuel (Z.to_nat today) n [] (today - 1)) as Hf.
    destruct (trading_days_loop _ n [] (today - 1)); simpl; [discriminate |].
    intros [= ->]. apply Hf; [| done]. unfold MINORDINAL in *. lia.
  - unfold date_sub_days in Hsub.
    destruct ((MINORDINAL <=? today - 1) && (today - 1 <=? MAXORDINAL));
      [discriminate | by intros [= ->]].
Qed.

(** The loop leaves out no weekday it has walked past, and every day it has
    collected lies above the day it stopped at. *)
Lemma trading_days_loop_exact today fuel : forall n days current out,
  current < today -> MINORDINAL <= current ->
  Forall (fun d => current < d) days -> StronglySorted Z.gt days ->
  (forall d, current < d < today -> weekday d < 5 -> In d days) ->
  trading_days_loop fuel n days current = Ok out ->
  StronglySorted Z.gt out /\
  exists stop, MINORDINAL <= stop /\
    Forall (fun d => stop < d) out /\
    (forall d, stop < d < today -> weekday d < 5 -> In d out).
Proof.
  induction fuel as [| fuel IH]; intros n days current out Hc Hmin Hlow Hs Hall;
    simpl; destruct (Z.of_nat _ <? n).
  - discriminate.
  - intros [= <-]. split; [done |]. by exists current.
  - destruct (date_sub_days current 1) as [c' |] eqn:Hsub; simpl; [| discriminate].
    apply date_sub_days_Ok in Hsub as [-> [Hmin' _]].
    assert (Hweak : Forall (fun d => current - 1 < d) days).
    { eapply Forall_impl; [exact Hlow |]. simpl. lia. }
    apply IH; [lia | done | | |].
    + destruct (weekday current <? 5); [| done].
      apply Forall_app. split; [done |]. constructor; [lia | constructor].
    + destruct (weekday current <? 5); [| done].
      apply StronglySorted_app_2; [| done | repeat constructor].
      intros x1 x2 Hx1 Hx2. apply list_elem_of_singleton in Hx2 as ->.
      rewrite Forall_forall in Hlow. apply Hlow in Hx1. lia.
    + intros d Hd Hwd. destruct (Z.eq_dec d current) as [-> | Hne].
      * apply Z.ltb_lt in Hwd. rewrite Hwd. apply in_app_iff. right. by left.
      * assert (Hin : In d days) by (apply Hall; [lia | done]).
        destruct (weekday current <? 5); [| done]. apply in_app_iff. by left.
  - intros [= <-]. split; [done |]. by exists current.
Qed.

Lemma get_last_trading_days_exact n today days :
  get_last_trading_days n today = Ok days ->
  StronglySorted Z.lt days /\
  exists stop, MINORDINAL <= stop /\
    Forall (fun d => stop < d < today) days /\
    (forall d, stop < d < today -> weekday d < 5 -> In d days).
Proof.
  unfold get_last_trading_days.
  destruct (date_sub_days today 1) as [current |] eqn:Hsub; simpl; [| discriminate].
  apply date_sub_days_Ok in Hsub as [-> [Hmin _]].
  destruct (trading_days_loop _ n [] (today - 1)) as [out |] eqn:Hloop; simpl;
    [| discriminate].
  intros [= <-].
  pose proof Hloop as Hbelow.
  apply (trading_days_loop_exact today) in Hloop as (Hs & stop & Hstop & Hlow & Hall);
    [| lia | done | constructor | constructor | intros d Hd; lia].
  rewrite (sorted_dates_descending _ Hs). split; [by apply StronglySorted_rev_gt |].
  exists stop. split; [done |]. split.
  - rewrite Forall_forall in *. intros d Hd.
    apply list_elem_of_In, in_rev, list_elem_of_In in Hd.
    split; [by apply Hlow |].
    clear Hall Hlow Hs. revert Hd. generalize (Z.to_nat today). intros fuel Hd.
    assert (Hgen : forall fuel n days current out,
      current < today -> Forall (fun x => x < today) days ->
      trading_days_loop fuel n days current = Ok out -> Forall (fun x => x < today) out).
    { clear. induction fuel as [| fuel IH]; intros n days current out Hc Hd; simpl;
        destruct (Z.of_nat _ <? n); try discriminate;
        try (by intros [= <-]).
      destruct (date_sub_days current 1) as [c' |] eqn:Hsub; simpl; [| discriminate].
      apply date_sub_days_Ok in Hsub as [-> _].
      apply IH; [lia |]. destruct (weekday current <? 5); [| done].
      apply Forall_app. split; [done |]. constructor; [lia | constructor]. }
    eapply Hgen in Hbelow; [| lia | constructor].
    rewrite Forall_forall in Hbelow. by apply Hbelow.
  - intros d Hd Hwd. apply in_rev. rewrite rev_involutive. by apply Hall.
Qed.

Lemma trading_days_loop_raise fuel : forall n days current e,
  trading_days_loop fuel n days current = Raise e ->
  e = OverflowError \/ e = OutOfFuel.
Proof.
  induction fuel as [| fuel IH]; intros n days current e; simpl;
    destruct (Z.of_nat _ <? n); try discriminate.
  - intros [= <-]. by right.
  - destruct (date_sub_days current 1) as [c' |] eqn:Hsub; simpl; [apply IH |].
    unfold date_sub_days in Hsub.
    destruct ((MINORDINAL <=? current - 1) && (current - 1 <=? MAXORDINAL));
      [discriminate |].
    injection Hsub as <-. intros [= <-]. by left.
Qed.

Lemma get_last_trading_days_raise n today e :
  get_last_trading_days n today = Raise e -> e = OverflowError.
Proof.
  intros Hget. pose proof (get_last_trading_days_fuel n today) as Hfuel.
  rewrite Hget in Hfuel. revert Hget. unfold get_last_trading_days.
  destruct (date_sub_days today 1) as [current |] eqn:Hsub; simpl.
  - destruct (trading_days_loop _ n [] current) as [out |] eqn:Hloop; simpl;
      [discriminate |].
    intros [= ->]. apply trading_days_loop_raise in Hloop as [-> | ->]; [done |].
    by destruct Hfuel.
  - unfold date_sub_days in Hsub.
    destruct ((MINORDINAL <=? today - 1) && (today - 1 <=? MAXORDINAL));
      [discriminate |].
    injection Hsub as <-. by intros [= <-].
Qed.

(** *** How far back the calendar reaches *)

Lemma weekdays_upto_step current :
  2 <= current ->
  List.filter (fun d => weekday d <? 5) (seqZ 2 (current - 1)) =
  List.filter (fun d => weekday d <? 5) (seqZ 2 (current - 2)) ++
    (if weekday current <? 5 then [current] else []).
Proof.
  intros Hc. replace (current - 1) with ((current - 2) + 1) by lia.
  rewrite seqZ_app by lia. rewrite List.filter_app. f_equal.
  replace (2 + (current - 2)) with current by lia.
  rewrite seqZ_cons by lia. rewrite (seqZ_nil _ (Z.pred 1)) by lia. simpl.
  by destruct (weekday current <? 5).
Qed.

(** The loop returns when the weekdays from day 2 up to [current] are
    enough for what is still missing: the step down from [current] is then
    always possible. *)
Lemma trading_days_loop_complete fuel : forall n days current,
  MINORDINAL <= current <= MAXORDINAL -> current <= Z.of_nat fuel ->
  n - Z.of_nat (length days) <=
    Z.of_nat (length (List.filter (fun d => weekday d <? 5) (seqZ 2 (current - 1)))) ->
  exists out, trading_days_loop fuel n days current = Ok out.
Proof.
  unfold MINORDINAL.
  induction fuel as [| fuel IH]; intros n days current Hc Hfuel Hroom; simpl;
    destruct (Z.ltb_spec (Z.of_nat (length days)) n) as [Hlt | Hge]; eauto; [lia |].
  assert (H2 : 2 <= current).
  { destruct (Z.le_gt_cases 2 current) as [H | H]; [done |].
    rewrite seqZ_nil in Hroom by lia. simpl in Hroom. lia. }
  rewrite date_sub_days_in_range by (unfold MINORDINAL; lia). simpl.
  apply IH; [lia | lia |].
  rewrite weekdays_upto_step in Hroom by done.
  rewrite length_app in Hroom.
  replace (current - 1 - 1) with (current - 2) by lia.
  destruct (weekday current <? 5); simpl in *; [rewrite length_app; simpl |]; lia.
Qed.

(** The days of a returned list are among the weekdays after day 1: the
    walk cannot return once it has collected day 1, because the step that
    follows fails. *)
Lemma returned_days_fit n today days :
  0 <= n -> get_last_trading_days n today = Ok days ->
  n <= Z.of_nat (length (weekdays_before today)).
Proof.
  intros Hn Hget. pose proof Hget as Hsound.
  apply get_last_trading_days_sound in Hsound as (Hlen & Hs & Hwk); [| done].
  apply get_last_trading_days_exact in Hget as (_ & stop & Hstop & Hlow & _).
  rewrite <- Hlen. apply Nat2Z.inj_le.
  apply submseteq_length, NoDup_submseteq; [by apply StronglySorted_lt_NoDup |].
  intros d Hd. unfold weekdays_before. apply list_elem_of_In, filter_In.
  rewrite Forall_forall in Hlow, Hwk.
  specialize (Hlow d Hd). destruct (Hwk d Hd) as [_ Hw].
  unfold MINORDINAL in Hstop.
  split; [apply list_elem_of_In, elem_of_seqZ; lia | by apply Z.ltb_lt].
Qed.




(** The example of the calendar property: 2024-01-08 (day 738893) is a
    Monday, and the five trading days before it are Monday 1 January to
    Friday 5 January. *)
Example trading_days_before_a_monday :
  weekday 738893 = 0 /\
  get_last_trading_days 5 738893 = Ok [738886; 738887; 738888; 738889; 738890].
Proof. split; vm_compute; reflexivity. Qed.

End Calendar.

(** ** Numbers *)

Section Numbers.

Lemma num_ltb_leb x y : num_ltb x y = true -> num_leb x y = true.
Proof.
  destruct x as [a | | |], y as [b | | |]; simpl; try done.
  rewrite !negb_true_iff, negb_false_iff. intros H.
  apply Qle_bool_iff. apply Qlt_le_weak, Qnot_le_lt.
  intros Hle. apply Qle_bool_iff in Hle. congruence.
Qed.

Lemma num_leb_total x y :
  is_nan x = false -> is_nan y = false ->
  num_ltb x y = false -> num_leb y x = true.
Proof.
  destruct x as [a | | |], y as [b | | |]; simpl; try done.
  by intros _ _ ->.
Qed.

Lemma num_leb_trans x y z :
  num_leb x y = true -> num_leb y z = true -> num_leb x z = true.
Proof.
  destruct x as [a | | |], y as [b | | |], z as [c | | |]; simpl; try done.
  rewrite !negb_involutive, !Qle_bool_iff. apply Qle_trans.
Qed.

Lemma num_leb_not_nan x y :
  num_leb x y = true -> is_nan x = false /\ is_nan y = false.
Proof. by destruct x, y. Qed.

Lemma num_gtb_nan_r x : num_gtb x (num_mul (Fin 3) NaN) = false.
Proof. by destruct x. Qed.

Lemma num_leb_Fin a b : num_leb (Fin a) (Fin b) = true <-> (a <= b)%Q.
Proof. simpl. rewrite negb_involutive. apply Qle_bool_iff. Qed.

Lemma num_ltb_Fin a b : num_ltb (Fin a) (Fin b) = true <-> (a < b)%Q.
Proof.
  simpl. rewrite negb_true_iff. split.
  - intros H. apply Qnot_le_lt. intros Hle. apply Qle_bool_iff in Hle. congruence.
  - intros H. destruct (Qle_bool b a) eqn:E; [| done].
    apply Qle_bool_iff in E. by apply Qlt_not_le in H.
Qed.

End Numbers.

(** ** The per-symbol average *)

Section Grouping.

Lemma has_symbol_iff s r : has_symbol s r = true <-> symbol_of r = Some s.
Proof.
  unfold has_symbol. destruct (symbol_of r) as [s' |]; [| done].
  destruct (String.eqb_spec s' s); split; congruence.
Qed.

Lemma group_add_lookup acc r s :
  group_add acc r !! s =
    if has_symbol s r
    then Some (observe (default (Fin 0, 0) (acc !! s)) (deliv_qty_of r))
    else acc !! s.
Proof.
  unfold group_add, has_symbol, observe.
  destruct (symbol_of r) as [s' |]; [| done].
  destruct (default (Fin 0, 0) (acc !! s')) as [sumx nobs] eqn:Hacc.
  destruct (String.eqb_spec s' s) as [-> | Hne].
  - rewrite Hacc. simpl. destruct (is_nan (deliv_qty_of r)); by rewrite lookup_insert_eq.
  - destruct (is_nan (deliv_qty_of r)); by rewrite lookup_insert_ne.
Qed.

Lemma foldl_group_add_lookup df : forall acc s,
  foldl group_add acc df !! s =
    match List.filter (has_symbol s) df with
    | [] => acc !! s
    | _ :: _ => Some (foldl observe (default (Fin 0, 0) (acc !! s)) (values_of s df))
    end.
Proof.
  unfold values_of.
  induction df as [| r df IH]; intros acc s; simpl; [done |].
  rewrite IH, group_add_lookup.
  destruct (has_symbol s r); simpl; [| done].
  by destruct (List.filter (has_symbol s) df).
Qed.

Lemma foldl_observe vals : forall g,
  foldl observe g vals =
    (foldl num_add (fst g) (present vals),
     snd g + Z.of_nat (length (present vals))).
Proof.
  unfold present.
  induction vals as [| v vals IH]; intros [sumx nobs]; simpl.
  - f_equal. lia.
  - rewrite IH. unfold observe. destruct (is_nan v); simpl; [done |].
    f_equal. lia.
Qed.

(** The one-pass average of the code is the mean of the specification: for
    every symbol with a record in the frame, the mean of its values that
    are not missing. *)
Lemma groupby_mean_lookup df s :
  groupby_mean df !! s =
    match List.filter (has_symbol s) df with
    | [] => None
    | _ :: _ => Some (spec_avgDeliveredQty s df)
    end.
Proof.
  unfold groupby_mean. rewrite lookup_fmap, foldl_group_add_lookup, lookup_empty.
  destruct (List.filter (has_symbol s) df) as [| r rs] eqn:Hf; simpl; [done |].
  rewrite foldl_observe. unfold spec_avgDeliveredQty, nanmean. simpl.
  destruct (present (values_of s df)) as [| x xs]; simpl; [done |].
  by destruct (Z.eqb_spec (Z.pos (Pos.of_succ_nat (length xs))) 0).
Qed.

Lemma groupby_mean_Some df s a :
  groupby_mean df !! s = Some a ->
  a = spec_avgDeliveredQty s df /\ exists r, In r df /\ symbol_of r = Some s.
Proof.
  rewrite groupby_mean_lookup.
  destruct (List.filter (has_symbol s) df) as [| r rs] eqn:Hf; [done |].
  intros [= <-]. split; [done |]. exists r.
  assert (Hin : In r (List.filter (has_symbol s) df)) by (rewrite Hf; by left).
  apply filter_In in Hin as [? ?]. by rewrite <- has_symbol_iff.
Qed.

Lemma groupby_mean_of_row df r s :
  In r df -> symbol_of r = Some s ->
  groupby_mean df !! s = Some (spec_avgDeliveredQty s df).
Proof.
  intros Hin Hs. rewrite groupby_mean_lookup.
  destruct (List.filter (has_symbol s) df) as [| r' rs] eqn:Hf; [| done].
  assert (Hr : In r (List.filter (has_symbol s) df)).
  { apply filter_In. split; [done |]. by apply has_symbol_iff. }
  rewrite Hf in Hr. destruct Hr.
Qed.

Lemma nanmean_all_missing vals :
  forallb is_nan vals = true -> nanmean vals = NaN.
Proof.
  intros H. unfold nanmean, present.
  replace (List.filter (fun v => negb (is_nan v)) vals) with (@nil num); [done |].
  induction vals as [| v vals IH]; simpl in *; [done |].
  apply andb_true_iff in H as [-> H]. simpl. by apply IH.
Qed.

End Grouping.

(** ** The ranking *)

Section Ranking.

Lemma StronglySorted_rev_flip {A} (R : relation A) l :
  StronglySorted R l -> StronglySorted (flip R) (rev l).
Proof.
  induction 1 as [| x l _ IH Hx]; simpl; [constructor |].
  apply StronglySorted_app_2; [| done | repeat constructor].
  intros x1 x2 Hx1 Hx2. apply list_elem_of_singleton in Hx2 as ->.
  rewrite Forall_forall in Hx. unfold flip.
  by apply Hx, list_elem_of_In, in_rev, list_elem_of_In.
Qed.

Lemma StronglySorted_weaken {A} (R S : relation A) l :
  (forall a b, R a b -> S a b) -> StronglySorted R l -> StronglySorted S l.
Proof.
  intros HRS. induction 1 as [| x l _ IH Hx]; constructor; [done |].
  eapply Forall_impl; [exact Hx | auto].
Qed.

Lemma StronglySorted_all {A} (R : relation A) (P : A -> Prop) l :
  (forall a b, P b -> R a b) -> Forall P l -> StronglySorted R l.
Proof.
  intros HR. induction 1 as [| x l _ Hl IH]; constructor; [done |].
  eapply Forall_impl; [exact Hl | auto].
Qed.

Lemma filter_split_perm {A} (f : A -> bool) l :
  Permutation (List.filter (fun x => negb (f x)) l ++ List.filter f l) l.
Proof.
  induction l as [| x l IH]; simpl; [done |].
  destruct (f x); simpl.
  - rewrite <- Permutation_middle. by constructor.
  - by constructor.
Qed.

Lemma insert_by_ratio_perm c l : Permutation (insert_by_ratio c l) (c :: l).
Proof.
  induction l as [| x l IH]; simpl; [done |].
  destruct (num_ltb (RATIO c) (RATIO x)); [done |].
  rewrite IH. apply perm_swap.
Qed.

Lemma foldl_insert_perm l : forall acc,
  Permutation (foldl (fun sorted c => insert_by_ratio c sorted) acc l) (l ++ acc).
Proof.
  induction l as [| x l IH]; intros acc; simpl; [done |].
  rewrite IH, insert_by_ratio_perm. symmetry. apply Permutation_middle.
Qed.

Lemma argsort_ratio_perm l : Permutation (argsort_ratio l) l.
Proof. unfold argsort_ratio. by rewrite foldl_insert_perm, app_nil_r. Qed.

Lemma sort_values_desc_perm l : Permutation (sort_values_desc l) l.
Proof.
  unfold sort_values_desc.
  rewrite <- Permutation_rev, argsort_ratio_perm, <- Permutation_rev.
  apply filter_split_perm.
Qed.

Lemma insert_by_ratio_sorted c l :
  has_ratio c -> Forall has_ratio l ->
  StronglySorted ratio_le l -> StronglySorted ratio_le (insert_by_ratio c l).
Proof.
  intros Hc Hl Hs. induction Hs as [| x l Hs IH Hx]; simpl.
  - repeat constructor.
  - apply Forall_cons in Hl as [Hx' Hl].
    destruct (num_ltb (RATIO c) (RATIO x)) eqn:E.
    + constructor; [by constructor |].
      apply num_ltb_leb in E. constructor; [done |].
      eapply Forall_impl; [exact Hx |]. intros y Hy. unfold ratio_le in *.
      by eapply num_leb_trans.
    + constructor; [by apply IH |].
      eapply Permutation_Forall; [symmetry; apply insert_by_ratio_perm |].
      constructor; [| done]. by apply num_leb_total.
Qed.

Lemma foldl_insert_sorted l : forall acc,
  Forall has_ratio l -> Forall has_ratio acc -> StronglySorted ratio_le acc ->
  StronglySorted ratio_le (foldl (fun sorted c => insert_by_ratio c sorted) acc l).
Proof.
  induction l as [| x l IH]; intros acc Hl Hacc Hs; simpl; [done |].
  apply Forall_cons in Hl as [Hx Hl].
  apply IH; [done | | by apply insert_by_ratio_sorted].
  eapply Permutation_Forall; [symmetry; apply insert_by_ratio_perm |].
  by constructor.
Qed.

Lemma sort_values_desc_sorted l : StronglySorted ratio_desc (sort_values_desc l).
Proof.
  unfold sort_values_desc.
  set (non_nans := List.filter (fun c => negb (is_nan (RATIO c))) l).
  set (nans := List.filter (fun c => is_nan (RATIO c)) l).
  assert (Hnn : Forall has_ratio (rev non_nans)).
  { rewrite Forall_forall. intros c Hc.
    apply list_elem_of_In, in_rev, filter_In in Hc as [_ Hc].
    by apply negb_true_iff in Hc. }
  assert (Hn : Forall (fun c => is_nan (RATIO c) = true) nans).
  { rewrite Forall_forall. intros c Hc.
    by apply list_elem_of_In, filter_In in Hc as [_ Hc]. }
  apply StronglySorted_app_2.
  - intros x1 x2 _ Hx2. left. rewrite Forall_forall in Hn. by apply Hn.
  - apply (StronglySorted_weaken (flip ratio_le)); [by right |].
    apply StronglySorted_rev_flip, foldl_insert_sorted; [done | constructor..].
  - eapply StronglySorted_all; [| exact Hn]. by left.
Qed.

End Ranking.

(** ** The analysis *)

Section Analysis.

Variable nifty500_symbols : list string.
Variable all_data : list frame.
Variable yesterday : date.

Local Abbreviation final_df := (universe_rows nifty500_symbols all_data).

Lemma isin_iff r :
  isin nifty500_symbols r = true <->
  exists s, symbol_of r = Some s /\ In s nifty500_symbols.
Proof.
  unfold isin. destruct (symbol_of r) as [s |].
  - rewrite existsb_exists. split.
    + intros (x & Hx & Heq). apply String.eqb_eq in Heq as ->. eauto.
    + intros (x & [= <-] & Hx). exists s. by rewrite String.eqb_refl.
  - split; [done | by intros (s & ? & _)].
Qed.

Lemma in_final_df r :
  In r final_df <-> In r (concat all_data) /\ isin nifty500_symbols r = true.
Proof. apply filter_In. Qed.

Lemma in_yesterday_rows r :
  In r (yesterday_rows yesterday final_df) <->
  In r final_df /\ date_is yesterday r = true.
Proof. apply filter_In. Qed.

Lemma merge_row_Some avg r m :
  merge_row avg r = Some m <->
  symbol_of r = Some (m_SYMBOL m) /\ m_DELIV_QTY m = deliv_qty_of r /\
  avg !! m_SYMBOL m = Some (m_AVG_30_DELIV_QTY m).
Proof.
  unfold merge_row. destruct m as [s d a]. simpl.
  destruct (symbol_of r) as [s' |]; [| by split; [| intros [? _]]].
  split.
  - destruct (avg !! s') as [a' |] eqn:E; [| done]. by intros [= -> <- ->].
  - intros ([= ->] & -> & ->). done.
Qed.

Lemma in_merged m :
  In m (merged yesterday final_df) <->
  exists r, In r final_df /\ date_is yesterday r = true /\
            symbol_of r = Some (m_SYMBOL m) /\
            m_DELIV_QTY m = deliv_qty_of r /\
            groupby_mean final_df !! m_SYMBOL m = Some (m_AVG_30_DELIV_QTY m).
Proof.
  unfold merged, merge. rewrite <- list_elem_of_In, list_elem_of_omap.
  split.
  - intros (r & Hr & Hm). exists r.
    apply list_elem_of_In, in_yesterday_rows in Hr as [? ?].
    apply merge_row_Some in Hm. tauto.
  - intros (r & Hin & Hd & Hm). exists r. split.
    + by apply list_elem_of_In, in_yesterday_rows.
    + by apply merge_row_Some.
Qed.

Lemma in_ranked c :
  In c (ranked yesterday final_df) <->
  exists m, In m (merged yesterday final_df) /\ spike m = true /\ c = with_ratio m.
Proof.
  unfold ranked, breakouts. split.
  - intros Hc. eapply Permutation_in in Hc; [| apply sort_values_desc_perm].
    apply in_map_iff in Hc as (m & <- & Hm). apply filter_In in Hm as [? ?]. eauto.
  - intros (m & Hm & Hs & ->).
    eapply Permutation_in; [symmetry; apply sort_values_desc_perm |].
    apply in_map. by apply filter_In.
Qed.

Lemma spike_not_nan m :
  spike m = true ->
  is_nan (m_DELIV_QTY m) = false /\ is_nan (m_AVG_30_DELIV_QTY m) = false.
Proof.
  unfold spike, num_gtb. destruct (m_AVG_30_DELIV_QTY m), (m_DELIV_QTY m); try done.
  all: simpl; unfold signed_inf; simpl; done.
Qed.

Lemma nanmean_present vals :
  is_nan (nanmean vals) = false -> exists v, In v vals /\ is_nan v = false.
Proof.
  unfold nanmean, present.
  destruct (List.filter (fun v => negb (is_nan v)) vals) as [| x xs] eqn:E; [done |].
  intros _. exists x.
  assert (Hx : In x (List.filter (fun v => negb (is_nan v)) vals)) by (rewrite E; by left).
  apply filter_In in Hx as [? Hx]. by apply negb_true_iff in Hx.
Qed.

End Analysis.

(** ** The threshold, the average and the candidates *)

Section Breakouts.

Variable nifty500_symbols : list string.
Variable all_data : list frame.
Variable yesterday : date.

Local Abbreviation final_df := (universe_rows nifty500_symbols all_data).

(** A latest-day record of a symbol with an average gives a merged row. *)
Lemma merged_of_record r s a :
  In r (yesterday_rows yesterday final_df) -> symbol_of r = Some s ->
  groupby_mean final_df !! s = Some a ->
  In {| m_SYMBOL := s; m_DELIV_QTY := deliv_qty_of r; m_AVG_30_DELIV_QTY := a |}
     (merged yesterday final_df).
Proof.
  intros Hr Hs Ha. apply in_yesterday_rows in Hr as [Hin Hd].
  apply in_merged. exists r. simpl. tauto.
Qed.

Lemma spike_at_1000 s z :
  spike {| m_SYMBOL := s; m_DELIV_QTY := Fin (inject_Z z);
           m_AVG_30_DELIV_QTY := Fin 1000 |} = true <-> 3000 < z.
Proof.
  unfold spike, num_gtb. simpl. unfold Qle_bool. simpl.
  rewrite negb_true_iff, Z.leb_gt. lia.
Qed.

(** C1.  The filter is a strict comparison with three times the average.
    For a symbol of the index whose average over the window is 1000 and whose
    latest-day records all carry the quantity [z]: with [z = 3500] the symbol
    is a candidate with ratio 3.50 (the quotient rounded to two decimals);
    with [z = 3000], exactly three times the average, it is no candidate;
    in general it is a candidate exactly when [z > 3000]. *)
Theorem breakout_threshold_strict s z :
  groupby_mean final_df !! s = Some (Fin 1000) ->
  (exists r, In r (yesterday_rows yesterday final_df) /\ symbol_of r = Some s) ->
  (forall r, In r (yesterday_rows yesterday final_df) -> symbol_of r = Some s ->
             deliv_qty_of r = Fin (inject_Z z)) ->
  (z = 3500 ->
   In {| SYMBOL := s; DELIV_QTY := Fin 3500; AVG_30_DELIV_QTY := Fin 1000;
         RATIO := Fin (7 # 2) |} (ranked yesterday final_df)) /\
  (z = 3000 -> forall c, In c (ranked yesterday final_df) -> SYMBOL c <> s) /\
  (3000 < z <-> exists c, In c (ranked yesterday final_df) /\ SYMBOL c = s).
Proof.
  intros Havg (r & Hr & Hs) Hall.
  assert (Hback : forall c, In c (ranked yesterday final_df) -> SYMBOL c = s -> 3000 < z).
  { intros c Hc Hsym. apply in_ranked in Hc as (m & Hm & Hsp & ->).
    apply in_merged in Hm as (r' & Hin & Hd & Hs' & Hq & Ha).
    destruct m as [s' d a]. simpl in *. subst s'.
    rewrite Havg in Ha. injection Ha as <-.
    rewrite (Hall r') in Hq; [| by apply in_yesterday_rows | done]. subst d.
    by apply (spike_at_1000 s). }
  assert (Hforth : 3000 < z ->
    In (with_ratio {| m_SYMBOL := s; m_DELIV_QTY := Fin (inject_Z z);
                      m_AVG_30_DELIV_QTY := Fin 1000 |}) (ranked yesterday final_df)).
  { intros Hz. apply in_ranked. eexists. split; [| split; [| done]].
    - rewrite <- (Hall r Hr Hs). by apply merged_of_record.
    - by apply spike_at_1000. }
  repeat split.
  - intros ->. apply Hforth. lia.
  - intros -> c Hc Hsym. specialize (Hback c Hc Hsym). lia.
  - intros Hz. eexists. split; [by apply Hforth | done].
  - intros (c & Hc & Hsym). by apply (Hback c).
Qed.

(** C7.  A latest-day record with a positive quantity, of a symbol whose
    average is zero, is a candidate; its ratio is the quotient by zero,
    plus infinity. *)
Theorem zero_average_is_included r s a :
  In r (yesterday_rows yesterday final_df) -> symbol_of r = Some s ->
  groupby_mean final_df !! s = Some (Fin a) -> (a == 0)%Q ->
  num_ltb (Fin 0) (deliv_qty_of r) = true ->
  In {| SYMBOL := s; DELIV_QTY := deliv_qty_of r; AVG_30_DELIV_QTY := Fin a;
        RATIO := PInf |} (ranked yesterday final_df).
Proof.
  intros Hr Hs Ha Hzero Hpos.
  pose proof (merged_of_record r s (Fin a) Hr Hs Ha) as Hm.
  apply in_ranked. eexists. split; [exact Hm |].
  assert (H3 : (Qred (3 * a) == 0)%Q) by (rewrite Qred_correct, Hzero; reflexivity).
  unfold spike, num_gtb, with_ratio. cbn [m_SYMBOL m_DELIV_QTY m_AVG_30_DELIV_QTY].
  destruct (deliv_qty_of r) as [d | | |]; try done.
  - apply num_ltb_Fin in Hpos. split.
    + apply num_ltb_Fin. rewrite Qred_correct, Hzero. lra.
    + unfold div64. cbn [num_div].
      apply Qeq_bool_iff in Hzero. rewrite Hzero. unfold signed_inf.
      apply Qgt_alt in Hpos. by rewrite Hpos.
  - split; [done |]. unfold div64. cbn [num_div].
    assert (Hle : Qle_bool 0 a = true).
    { apply Qle_bool_iff. rewrite Hzero. apply Qle_refl. }
    by rewrite Hle.
Qed.

(** What being in the report takes: a record of the latest day, a symbol of
    the index, and an average over at least one quantity. *)
Lemma ranked_candidate_inv c :
  In c (ranked yesterday final_df) ->
  In (SYMBOL c) nifty500_symbols /\
  (exists r, In r (concat all_data) /\ symbol_of r = Some (SYMBOL c) /\
             date_is yesterday r = true) /\
  AVG_30_DELIV_QTY c = spec_avgDeliveredQty (SYMBOL c) final_df /\
  is_nan (AVG_30_DELIV_QTY c) = false /\
  (exists r, In r final_df /\ symbol_of r = Some (SYMBOL c) /\
             is_nan (deliv_qty_of r) = false).
Proof.
  intros Hc. apply in_ranked in Hc as (m & Hm & Hsp & ->).
  apply in_merged in Hm as (r & Hin & Hd & Hs & Hq & Ha). simpl.
  apply spike_not_nan in Hsp as [_ Hnan].
  apply groupby_mean_Some in Ha as [Ha _].
  pose proof Hin as Hin'. apply in_final_df in Hin' as [Hcat Hisin].
  apply isin_iff in Hisin as (s & Hs' & Hu).
  rewrite Hs in Hs'. injection Hs' as <-.
  repeat split; [done | by exists r | done | done |].
  rewrite Ha in Hnan. apply nanmean_present in Hnan as (v & Hv & Hnv).
  apply in_map_iff in Hv as (r' & <- & Hr').
  apply filter_In in Hr' as [Hr' Hsym]. apply has_symbol_iff in Hsym.
  by exists r'.
Qed.

(** C8.  Every candidate is a symbol of the index with a record of the
    latest trading day and with an average that is not missing, the mean of
    at least one quantity of the window.  So a symbol outside the index is
    never a candidate, whatever its quantities. *)
Theorem candidates_are_universe_members c :
  In c (ranked yesterday final_df) ->
  In (SYMBOL c) nifty500_symbols /\
  (exists r, In r (concat all_data) /\ symbol_of r = Some (SYMBOL c) /\
             date_is yesterday r = true) /\
  AVG_30_DELIV_QTY c = spec_avgDeliveredQty (SYMBOL c) final_df /\
  is_nan (AVG_30_DELIV_QTY c) = false /\
  (exists r, In r final_df /\ symbol_of r = Some (SYMBOL c) /\
             is_nan (deliv_qty_of r) = false).
Proof. apply ranked_candidate_inv. Qed.

End Breakouts.

Section Averages.

Variable nifty500_symbols : list string.
Variable all_data : list frame.
Variable yesterday : date.

Local Abbreviation final_df := (universe_rows nifty500_symbols all_data).

(** C3.  The average joined to a symbol is the mean of the quantities of all
    its records in the filtered window, the records of the latest day among
    them, over the values that are not missing (they enter neither the sum
    nor the count).  A raw quantity ["N/A"] or an empty one is coerced to a
    missing value, not an error.  A symbol whose quantities are all missing
    is no candidate. *)
Theorem trailing_average_skips_missing :
  (forall s,
     groupby_mean final_df !! s =
       match List.filter (has_symbol s) final_df with
       | [] => None
       | _ :: _ => Some (spec_avgDeliveredQty s final_df)
       end) /\
  (forall m, In m (merged yesterday final_df) ->
     m_AVG_30_DELIV_QTY m = spec_avgDeliveredQty (m_SYMBOL m) final_df) /\
  (forall r, In r (yesterday_rows yesterday final_df) -> In r final_df) /\
  to_numeric (CStr "N/A") = Ok (CNum NaN) /\
  to_numeric (CStr EmptyString) = Ok (CNum NaN) /\
  (forall s, forallb is_nan (values_of s final_df) = true ->
     forall c, In c (ranked yesterday final_df) -> SYMBOL c <> s).
Proof.
  repeat split.
  - intros s. apply groupby_mean_lookup.
  - intros m Hm. apply in_merged in Hm as (r & _ & _ & _ & _ & Ha).
    by apply groupby_mean_Some in Ha as [Ha _].
  - intros r Hr. by apply in_yesterday_rows in Hr as [? _].
  - intros s Hall c Hc Hs.
    apply ranked_candidate_inv in Hc as (_ & _ & Ha & Hnan & _).
    rewrite Ha, Hs in Hnan. unfold spec_avgDeliveredQty in Hnan.
    by rewrite nanmean_all_missing in Hnan.
Qed.

Lemma filter_length_perm {A} (f : A -> bool) l l' :
  Permutation l l' -> length (List.filter f l) = length (List.filter f l').
Proof.
  induction 1 as [| x l l' _ IH | x y l | l l' l'' _ IH1 _ IH2]; simpl;
    [done | | | congruence].
  - destruct (f x); simpl; congruence.
  - destruct (f x), (f y); simpl; congruence.
Qed.

Lemma occurrences_merge s avg rows :
  occurrences s (map with_ratio (List.filter spike (omap (merge_row avg) rows))) =
  length (List.filter (spiking_record s (default NaN (avg !! s))) rows).
Proof.
  unfold occurrences.
  remember (default NaN (avg !! s)) as a0 eqn:Ha0.
  induction rows as [| r rows IH]; [done |].
  cbn [omap list_omap List.filter].
  unfold spiking_record at 1, merge_row at 1, has_symbol at 1.
  destruct (symbol_of r) as [s' |]; [| exact IH].
  destruct (String.eqb_spec s' s) as [-> | Hne].
  - destruct (avg !! s) as [a |]; simpl in Ha0; subst a0; cbn [andb List.filter].
    + unfold spike at 1. cbn [m_DELIV_QTY m_AVG_30_DELIV_QTY].
      destruct (num_gtb (deliv_qty_of r) (num_mul (Fin 3) a)); [| exact IH].
      cbn [map List.filter with_ratio SYMBOL m_SYMBOL]. rewrite String.eqb_refl.
      cbn [length]. by rewrite IH.
    + rewrite num_gtb_nan_r. exact IH.
  - cbn [andb]. destruct (avg !! s') as [a |]; [| exact IH].
    cbn [List.filter]. destruct (spike _); [| exact IH].
    cbn [map List.filter with_ratio SYMBOL m_SYMBOL].
    apply String.eqb_neq in Hne. rewrite Hne. exact IH.
Qed.

Lemma occurrences_ranked s :
  occurrences s (ranked yesterday final_df) =
  length (List.filter
            (spiking_record s (default NaN (groupby_mean final_df !! s)))
            (yesterday_rows yesterday final_df)).
Proof.
  unfold ranked, breakouts, merged, merge, occurrences.
  rewrite (filter_length_perm _ _ _ (sort_values_desc_perm _)).
  apply occurrences_merge.
Qed.

(** C10.  The candidates are not deduplicated by symbol.  When every record
    that the latest trading day holds for a symbol passes the threshold, the
    report lists the symbol once for each of these records. *)
Theorem report_lists_every_latest_record s :
  (forall r, In r (yesterday_rows yesterday final_df) -> symbol_of r = Some s ->
     num_gtb (deliv_qty_of r)
             (num_mul (Fin 3) (spec_avgDeliveredQty s final_df)) = true) ->
  occurrences s (ranked yesterday final_df) =
  length (List.filter (has_symbol s) (yesterday_rows yesterday final_df)).
Proof.
  intros Hall. rewrite occurrences_ranked. f_equal.
  apply filter_ext_in. intros r Hr. unfold spiking_record.
  destruct (has_symbol s r) eqn:Hs; [| done]. simpl.
  apply has_symbol_iff in Hs.
  pose proof Hr as Hr'. apply in_yesterday_rows in Hr' as [Hin _].
  rewrite (groupby_mean_of_row _ r s Hin Hs). simpl. by apply Hall.
Qed.

(** C6, as far as the code goes.  The report is in descending order of
    ratio, with the rows that have no ratio last, and it is a rearrangement
    of the candidates.  Nothing is said of the order among equal ratios: no
    key but the ratio takes part in the sort. *)
Theorem report_sorted_by_ratio :
  StronglySorted ratio_desc (ranked yesterday final_df) /\
  Permutation (ranked yesterday final_df)
              (map with_ratio (breakouts yesterday final_df)).
Proof.
  split; [apply sort_values_desc_sorted | apply sort_values_desc_perm].
Qed.

End Averages.

(** C6, as stated, fails: [B] and [A] have the same quantities on every day,
    hence the same ratio, and the report of this window lists [B] before
    [A]. *)
Lemma equal_ratios_not_ordered_by_symbol :
  ~ StronglySorted ratio_then_symbol
      (ranked 739923 (universe_rows ["A"; "B"] window_tie)).
Proof.
  assert (Hr : ranked 739923 (universe_rows ["A"; "B"] window_tie) =
    [ {| SYMBOL := "B"; DELIV_QTY := Fin 1000; AVG_30_DELIV_QTY := Fin 190;
         RATIO := round64 (Fin 5.26) |};
      {| SYMBOL := "A"; DELIV_QTY := Fin 1000; AVG_30_DELIV_QTY := Fin 190;
         RATIO := round64 (Fin 5.26) |} ]) by (vm_compute; reflexivity).
  rewrite Hr. intros Hs. apply StronglySorted_inv in Hs as [_ Hall].
  apply Forall_cons in Hall as [[Hlt | [_ Hle]] _]; by vm_compute in *.
Qed.

(** ** The properties at the sample windows *)

Lemma breakout_threshold_strict_witness :
  In {| SYMBOL := "X"; DELIV_QTY := Fin 3500; AVG_30_DELIV_QTY := Fin 1000;
        RATIO := Fin (7 # 2) |}
     (ranked 739923 (universe_rows ["X"] window_3500)) /\
  forall c, In c (ranked 739923 (universe_rows ["X"] window_3000)) -> SYMBOL c <> "X".
Proof.
  split.
  - refine (proj1 (breakout_threshold_strict ["X"] window_3500 739923 "X" 3500 _ _ _)
              eq_refl).
    + vm_compute. reflexivity.
    + exists (record_row "X" (Fin 3500) 739923). split; [vm_compute; auto | reflexivity].
    + intros r Hr _. vm_compute in Hr. destruct Hr as [<- | []]. reflexivity.
  - refine (proj1 (proj2
              (breakout_threshold_strict ["X"] window_3000 739923 "X" 3000 _ _ _))
              eq_refl).
    + vm_compute. reflexivity.
    + exists (record_row "X" (Fin 3000) 739923). split; [vm_compute; auto | reflexivity].
    + intros r Hr _. vm_compute in Hr. destruct Hr as [<- | []]. reflexivity.
Defined.

Lemma zero_average_is_included_witness :
  In {| SYMBOL := "X"; DELIV_QTY := Fin 700; AVG_30_DELIV_QTY := Fin 0;
        RATIO := PInf |}
     (ranked 739923 (universe_rows ["X"; "C"] window_zero)).
Proof.
  refine (zero_average_is_included ["X"; "C"] window_zero 739923
            (record_row "X" (Fin 700) 739923) "X" 0 _ _ _ _ _).
  - vm_compute. auto.
  - reflexivity.
  - vm_compute. reflexivity.
  - reflexivity.
  - reflexivity.
Defined.

Lemma candidates_are_universe_members_witness :
  In "X" ["X"; "C"] /\
  (exists r, In r (concat window_zero) /\ symbol_of r = Some "X" /\
             date_is 739923 r = true) /\
  Fin 0 = spec_avgDeliveredQty "X" (universe_rows ["X"; "C"] window_zero) /\
  is_nan (Fin 0) = false /\
  (exists r, In r (universe_rows ["X"; "C"] window_zero) /\
             symbol_of r = Some "X" /\ is_nan (deliv_qty_of r) = false).
Proof.
  refine (candidates_are_universe_members ["X"; "C"] window_zero 739923
            {| SYMBOL := "X"; DELIV_QTY := Fin 700; AVG_30_DELIV_QTY := Fin 0;
               RATIO := PInf |} _).
  vm_compute. auto.
Defined.

Lemma trailing_average_skips_missing_witness :
  groupby_mean (universe_rows ["X"; "C"] window_zero) !! "C" = Some NaN /\
  forall c, In c (ranked 739923 (universe_rows ["X"; "C"] window_zero)) ->
            SYMBOL c <> "C".
Proof.
  split; [vm_compute; reflexivity |].
  refine (proj2 (proj2 (proj2 (proj2 (proj2
            (trailing_average_skips_missing ["X"; "C"] window_zero 739923)))))
            "C" _).
  vm_compute. reflexivity.
Defined.

Lemma report_lists_every_latest_record_witness :
  occurrences "X" (ranked 739923 (universe_rows ["X"] window_twice)) = 2%nat.
Proof.
  refine (eq_trans
            (report_lists_every_latest_record ["X"] window_twice 739923 "X" _) _).
  - intros r Hr _. vm_compute in Hr.
    destruct Hr as [<- | [<- | []]]; vm_compute; reflexivity.
  - vm_compute. reflexivity.
Defined.

(** The missing-value example end to end: the symbol [Z] is outside the
    index and [C] has no quantity at all, so [X] is the only row of the
    report in spite of the spike of [Z]. *)
Example window_zero_report :
  map SYMBOL (ranked 739923 (universe_rows ["X"; "C"] window_zero)) = ["X"].
Proof. vm_compute. reflexivity. Qed.

(** ** The record cache *)

Section Stamping.

Lemma has_label_In c l : has_label c l = true <-> In c l.
Proof.
  unfold has_label. rewrite existsb_exists. split.
  - intros (x & Hx & Heq). by apply String.eqb_eq in Heq as ->.
  - intros Hc. exists c. by rewrite String.eqb_refl.
Qed.

Lemma row_replace_get c v r :
  has_label c (map fst r) = true -> row_get c (row_replace c v r) = Some v.
Proof.
  induction r as [| [k x] r IH]; simpl; [done |].
  rewrite (String.eqb_sym c k).
  destruct (String.eqb_spec k c) as [-> | Hne]; simpl.
  - intros _. by rewrite String.eqb_refl.
  - intros Hr. apply String.eqb_neq in Hne. rewrite Hne. by apply IH.
Qed.

Lemma row_append_get c v r :
  has_label c (map fst r) = false -> row_get c (r ++ [(c, v)]) = Some v.
Proof.
  induction r as [| [k x] r IH]; simpl.
  - intros _. by rewrite String.eqb_refl.
  - rewrite (String.eqb_sym c k).
    destruct (String.eqb k c); simpl; [done | apply IH].
Qed.

Lemma row_replace_cells c v r :
  Forall (fun x => x = v) (cells_under c (row_replace c v r)).
Proof.
  unfold cells_under.
  induction r as [| [k x] r IH]; simpl; [constructor |].
  destruct (String.eqb k c) eqn:E; simpl; rewrite E; simpl; [by constructor | done].
Qed.

Lemma row_append_cells c v r :
  has_label c (map fst r) = false ->
  Forall (fun x => x = v) (cells_under c (r ++ [(c, v)])).
Proof.
  unfold cells_under.
  induction r as [| [k x] r IH]; simpl.
  - intros _. rewrite String.eqb_refl. simpl. by repeat constructor.
  - rewrite (String.eqb_sym c k).
    destruct (String.eqb k c); simpl; [done | apply IH].
Qed.

Lemma row_set_stamped d r : stamped_row d (row_set "DATE" (CDate d) r).
Proof.
  unfold stamped_row, row_set.
  destruct (has_label "DATE" (map fst r)) eqn:E.
  - split; [by apply row_replace_get | apply row_replace_cells].
  - split; [by apply row_append_get | by apply row_append_cells].
Qed.

Lemma frame_set_stamped d df : stamped d (frame_set "DATE" (CDate d) df).
Proof.
  split; simpl.
  - destruct (has_label "DATE" (columns df)) eqn:E; [done |].
    apply has_label_In, in_app_iff. right. by left.
  - apply Forall_forall. intros r Hr.
    apply list_elem_of_In, in_map_iff in Hr as (r0 & <- & _).
    apply row_set_stamped.
Qed.

End Stamping.

Section Cache.

Variable file : Type.
Variable read_csv : file -> result frame.
Variable to_csv : frame -> file.
Variable to_datetime : cell -> result date.

Local Abbreviation normalize_payload' := (normalize_payload file read_csv).
Local Abbreviation load_from_disk' := (load_from_disk file read_csv to_datetime).
Local Abbreviation get_delivery_data' :=
  (get_delivery_data file read_csv to_csv to_datetime).
Local Abbreviation fetch_all' := (fetch_all file read_csv to_csv to_datetime).
Local Abbreviation cache_ok' := (cache_ok file read_csv to_datetime).
Local Abbreviation cache_ok_at' := (cache_ok_at file read_csv to_datetime).
Local Abbreviation main' := (main file read_csv to_csv to_datetime).

Lemma normalize_payload_stamped d body df :
  normalize_payload' d body = Ok df -> stamped d df.
Proof.
  unfold normalize_payload.
  destruct (read_csv body) as [df0 |]; simpl; [| done].
  destruct (frame_apply "DELIV_QTY" to_numeric (normalize_columns df0)) as [df1 |];
    simpl; [| done].
  destruct (frame_apply "TTL_TRD_QNTY" to_numeric df1) as [df2 |]; simpl; [| done].
  intros [= <-]. apply frame_set_stamped.
Qed.

(** What one call does, case by case. *)
Lemma get_delivery_data_cases archive d w res w' :
  get_delivery_data' archive d w = (res, w') ->
  (exists f, files w !! d = Some f /\ w' = w /\
             res = (let* df := load_from_disk' f in Ok (Some df))) \/
  (files w !! d = None /\
   requests w' = requests w ++ [GetHome; GetArchive d] /\
   ((status_code (archive d) <> 200 /\ res = Ok None /\ files w' = files w) \/
    (status_code (archive d) = 200 /\
     ((exists e, normalize_payload' d (text (archive d)) = Raise e /\
                 res = Raise e /\ files w' = files w) \/
      (exists df, normalize_payload' d (text (archive d)) = Ok df /\
                  res = Ok (Some df) /\
                  files w' = <[d := to_csv df]> (files w)))))).
Proof.
  unfold get_delivery_data.
  destruct (files w !! d) as [f |] eqn:Hf.
  - intros [= <- <-]. left. by exists f.
  - destruct (Z.eqb_spec (status_code (archive d)) 200) as [Hs | Hs]; simpl.
    + destruct (normalize_payload' d (text (archive d))) as [df | e] eqn:Hn;
        intros [= <- <-]; right; simpl; (split; [done |]); (split; [done |]);
        right; (split; [done |]).
      * right. by exists df.
      * left. by exists e.
    + intros [= <- <-]. right. simpl. split; [done |]. split; [done |]. by left.
Qed.

(** C4.  In a log folder that is in order, every record that a successful
    call for a date returns carries that date in its [DATE] field, whatever
    the payload holds under a label that normalises to [DATE]: the frame has
    the column, the field reads as the requested date, and no cell under the
    label is anything else. *)
Theorem fetched_records_carry_requested_date archive d w df w' :
  cache_ok' w ->
  get_delivery_data' archive d w = (Ok (Some df), w') ->
  has_label "DATE" (columns df) = true /\
  forall r, In r (rows df) ->
    row_get "DATE" r = Some (CDate d) /\
    Forall (fun c => c = CDate d) (cells_under "DATE" r).
Proof.
  intros Hok Hget.
  assert (Hst : stamped d df).
  { apply get_delivery_data_cases in Hget
      as [(f & Hf & _ & Hres) | (_ & _ & [(_ & [=] & _) | (_ & [Hn | Hn])])].
    - destruct (load_from_disk' f) as [df0 |] eqn:Hl; simpl in Hres; [| done].
      injection Hres as ->. by apply (Hok d f).
    - by destruct Hn as (e & _ & [=] & _).
    - destruct Hn as (df0 & Hn & [= ->] & _). by apply normalize_payload_stamped in Hn. }
  destruct Hst as [Hc Hr]. split; [done |].
  intros r Hin. rewrite Forall_forall in Hr. by apply Hr, list_elem_of_In.
Qed.

Lemma get_delivery_data_stamped archive d w df w' :
  cache_ok_at' w d ->
  get_delivery_data' archive d w = (Ok (Some df), w') ->
  stamped d df /\ (files w !! d = None -> status_code (archive d) = 200).
Proof.
  intros Hok Hget.
  apply get_delivery_data_cases in Hget
    as [(f & Hf & _ & Hres) | (_ & _ & [(_ & [=] & _) | (Hs & [Hn | Hn])])].
  - destruct (load_from_disk' f) as [df0 |] eqn:Hl; simpl in Hres; [| done].
    injection Hres as ->. split; [by apply (Hok f) | by rewrite Hf].
  - by destruct Hn as (e & _ & [=] & _).
  - destruct Hn as (df0 & Hn & [= ->] & _).
    split; [by apply normalize_payload_stamped in Hn | done].
Qed.

Lemma get_delivery_data_other archive d w res w' d' :
  get_delivery_data' archive d w = (res, w') -> d' <> d ->
  files w' !! d' = files w !! d'.
Proof.
  intros Hget Hne.
  apply get_delivery_data_cases in Hget
    as [(f & _ & -> & _) | (_ & _ & [(_ & _ & ->) | (_ & [Hn | Hn])])]; [done.. | |].
  - by destruct Hn as (e & _ & _ & ->).
  - destruct Hn as (df & _ & _ & ->). by rewrite lookup_insert_ne.
Qed.

End Cache.

Section Run.

Variable file : Type.
Variable read_csv : file -> result frame.
Variable to_csv : frame -> file.
Variable to_datetime : cell -> result date.

Local Abbreviation get_delivery_data' :=
  (get_delivery_data file read_csv to_csv to_datetime).
Local Abbreviation fetch_all' := (fetch_all file read_csv to_csv to_datetime).
Local Abbreviation cache_ok' := (cache_ok file read_csv to_datetime).
Local Abbreviation cache_ok_at' := (cache_ok_at file read_csv to_datetime).
Local Abbreviation main' := (main file read_csv to_csv to_datetime).

Lemma cache_ok_empty (log : list request) :
  cache_ok' {| files := ∅; requests := log |}.
Proof. intros d f df Hf. simpl in Hf. by rewrite lookup_empty in Hf. Qed.

(** Every frame that the download loop collects is stamped with one of the
    requested days; for a day without a file, the archive answered 200. *)
Lemma fetch_all_frames archive ds : forall w all_data w',
  NoDup ds -> (forall d, In d ds -> cache_ok_at' w d) ->
  fetch_all' archive ds w = (Ok all_data, w') ->
  Forall (fun df => exists d, In d ds /\ stamped d df /\
                      (files w !! d = None -> status_code (archive d) = 200))
         all_data.
Proof.
  induction ds as [| d ds IH]; intros w all_data w' Hnd Hok; simpl.
  - intros [= <- <-]. constructor.
  - apply NoDup_cons in Hnd as [Hd Hnd].
    destruct (get_delivery_data' archive d w) as [res w1] eqn:Hget.
    assert (Hfiles : forall d', In d' ds -> files w1 !! d' = files w !! d').
    { intros d' Hd'. eapply get_delivery_data_other; [exact Hget |].
      intros ->. by apply Hd, list_elem_of_In. }
    assert (Hok1 : forall d', In d' ds -> cache_ok_at' w1 d').
    { intros d' Hd' f df. rewrite (Hfiles d' Hd'). apply Hok. by right. }
    assert (Hrest : forall rest w2, fetch_all' archive ds w1 = (Ok rest, w2) ->
      Forall (fun df => exists d0, In d0 (d :: ds) /\ stamped d0 df /\
                          (files w !! d0 = None -> status_code (archive d0) = 200))
             rest).
    { intros rest w2 Hf. eapply Forall_impl; [exact (IH _ _ _ Hnd Hok1 Hf) |].
      simpl. intros df (d0 & Hd0 & Hst & Hs). exists d0.
      split; [by right |]. split; [done |]. rewrite <- (Hfiles d0 Hd0). exact Hs. }
    destruct res as [[df |] | e]; [| by apply Hrest | done].
    destruct (fetch_all' archive ds w1) as [[rest | e] w2] eqn:Hf; [| done].
    intros [= <- <-]. constructor; [| by eapply Hrest].
    exists d. split; [by left |].
    eapply get_delivery_data_stamped; [| exact Hget]. apply Hok. by left.
Qed.

Lemma filter_nil {A} (f : A -> bool) l :
  (forall x, In x l -> f x = false) -> List.filter f l = [].
Proof.
  induction l as [| x l IH]; simpl; [done |]. intros H.
  rewrite (H x) by (by left). apply IH. intros y Hy. apply H. by right.
Qed.

Lemma stamped_row_date_is d y r :
  stamped_row d r -> d <> y -> date_is y r = false.
Proof.
  intros [Hget _] Hne. unfold date_is. rewrite Hget. by apply Z.eqb_neq.
Qed.

Lemma ranked_without_latest nifty500_symbols all_data yesterday :
  (forall r, In r (concat all_data) -> date_is yesterday r = false) ->
  ranked yesterday (universe_rows nifty500_symbols all_data) = [].
Proof.
  intros Hno.
  assert (Hy : yesterday_rows yesterday (universe_rows nifty500_symbols all_data) = []).
  { apply filter_nil. intros r Hr. apply filter_In in Hr as [Hr _]. by apply Hno. }
  unfold ranked, breakouts, merged. by rewrite Hy.
Qed.


End Run.

Section Idempotence.

Variable file : Type.
Variable read_csv : file -> result frame.
Variable to_csv : frame -> file.
Variable to_datetime : cell -> result date.
Variable isoformat : date -> string.

Local Abbreviation get_delivery_data' :=
  (get_delivery_data file read_csv to_csv to_datetime).
Local Abbreviation no_date := (fun kv : string * cell => is_date (snd kv) = false).

Lemma row_apply_to_numeric c r : forall r',
  row_apply c to_numeric r = Ok r' ->
  Forall no_date r -> Forall no_date r'.
Proof.
  induction r as [| [k v] r IH]; intros r'; simpl.
  - by intros [= <-].
  - intros Hr Hall. apply Forall_cons in Hall as [Hv Hall].
    destruct (row_apply c to_numeric r) as [r0 |]; simpl in *.
    + destruct (String.eqb k c); simpl in Hr.
      * destruct v; simpl in Hr; injection Hr as <-; constructor; auto.
      * injection Hr as <-. constructor; auto.
    + by destruct (String.eqb k c); [destruct v |].
Qed.

Lemma rows_apply_to_numeric c l : forall l',
  rows_apply c to_numeric l = Ok l' ->
  Forall (Forall no_date) l ->
  Forall (Forall no_date) l'.
Proof.
  induction l as [| r l IH]; intros l'; simpl.
  - by intros [= <-].
  - intros Hl Hall. apply Forall_cons in Hall as [Hr Hall].
    destruct (row_apply c to_numeric r) as [r0 |] eqn:Hr0; simpl in Hl; [| done].
    destruct (rows_apply c to_numeric l) as [l0 |]; simpl in Hl; [| done].
    injection Hl as <-. constructor; [by eapply row_apply_to_numeric | by apply IH].
Qed.

Lemma frame_apply_to_numeric c df df' :
  frame_apply c to_numeric df = Ok df' -> no_date_cells df -> no_date_cells df'.
Proof.
  unfold frame_apply, no_date_cells.
  destruct (count_label c (columns df)) as [| [| n]]; [done | | done].
  destruct (rows_apply c to_numeric (rows df)) as [l |] eqn:Hl; simpl; [| done].
  intros [= <-] Hall. simpl. by eapply rows_apply_to_numeric.
Qed.

Lemma normalize_columns_no_dates df :
  no_date_cells df -> no_date_cells (normalize_columns df).
Proof.
  unfold no_date_cells. simpl. intros Hall.
  apply Forall_fmap. eapply Forall_impl; [exact Hall |].
  intros r Hr. simpl. apply Forall_fmap. eapply Forall_impl; [exact Hr |]. done.
Qed.

Lemma row_set_dated d r :
  Forall no_date r -> dated_only d (row_set "DATE" (CDate d) r).
Proof.
  intros Hall. unfold dated_only, row_set.
  destruct (has_label "DATE" (map fst r)) eqn:E.
  - unfold row_replace. apply Forall_fmap. eapply Forall_impl; [exact Hall |].
    intros [k v] Hv. simpl in *. destruct (String.eqb k "DATE") eqn:Ek; simpl;
      by rewrite Ek.
  - apply Forall_app. split.
    + rewrite Forall_forall in *. intros [k v] Hkv. simpl.
      destruct (String.eqb_spec k "DATE") as [-> | _]; [| by apply (Hall (k, v))].
      assert (Hin : has_label "DATE" (map fst r) = true); [| congruence].
      apply has_label_In, in_map_iff. exists ("DATE", v).
      split; [done | by apply list_elem_of_In].
    + by repeat constructor.
Qed.

Lemma normalize_payload_dated d body df :
  (forall raw, read_csv body = Ok raw -> no_date_cells raw) ->
  normalize_payload file read_csv d body = Ok df ->
  Forall (dated_only d) (rows df).
Proof.
  intros Hraw. unfold normalize_payload.
  destruct (read_csv body) as [df0 |]; simpl; [| done].
  specialize (Hraw df0 eq_refl). apply normalize_columns_no_dates in Hraw.
  destruct (frame_apply "DELIV_QTY" to_numeric (normalize_columns df0)) as [df1 |]
    eqn:H1; simpl; [| done].
  apply frame_apply_to_numeric in H1; [| done].
  destruct (frame_apply "TTL_TRD_QNTY" to_numeric df1) as [df2 |] eqn:H2; simpl;
    [| done].
  apply frame_apply_to_numeric in H2; [| done].
  intros [= <-]. simpl. apply Forall_fmap.
  eapply Forall_impl; [exact H2 |]. intros r Hr. by apply row_set_dated.
Qed.

(** Reading a stamped row back: the text under [DATE] parses to the date
    again and nothing else is touched. *)
Lemma row_reload d r :
  to_datetime (CStr (isoformat d)) = Ok d -> dated_only d r ->
  row_apply "DATE" (parse_date_cell to_datetime)
    (map (fun kv => (fst kv, cell_as_text isoformat (snd kv))) r) = Ok r.
Proof.
  intros Hiso. induction 1 as [| [k v] r Hkv _ IH]; simpl; [done |].
  rewrite IH. simpl in *. destruct (String.eqb k "DATE").
  - subst v. simpl. unfold parse_date_cell. by rewrite Hiso.
  - by destruct v.
Qed.

Lemma rows_reload d l :
  to_datetime (CStr (isoformat d)) = Ok d -> Forall (dated_only d) l ->
  rows_apply "DATE" (parse_date_cell to_datetime)
    (map (map (fun kv => (fst kv, cell_as_text isoformat (snd kv)))) l) = Ok l.
Proof.
  intros Hiso. induction 1 as [| r l Hr _ IH]; simpl; [done |].
  by rewrite (row_reload d r Hiso Hr), IH.
Qed.

Lemma load_written d df :
  count_label "DATE" (columns df) = 1%nat ->
  Forall (dated_only d) (rows df) ->
  read_csv (to_csv df) = Ok (dates_as_text isoformat df) ->
  to_datetime (CStr (isoformat d)) = Ok d ->
  load_from_disk file read_csv to_datetime (to_csv df) = Ok df.
Proof.
  intros Hcount Hrows Hcsv Hiso. unfold load_from_disk. rewrite Hcsv. simpl.
  unfold frame_apply. simpl. rewrite Hcount, (rows_reload d _ Hiso Hrows). simpl.
  by destruct df.
Qed.


(** A frame with several [DATE] columns, or none, is never what a later
    call returns, whatever the file format: the cache branch converts the
    one [DATE] column of what it reads and fails without it. *)
Lemma reload_has_one_date_column archive d w df w' :
  files w !! d <> None ->
  get_delivery_data' archive d w = (Ok (Some df), w') ->
  count_label "DATE" (columns df) = 1%nat.
Proof.
  intros Hf. unfold get_delivery_data, load_from_disk.
  destruct (files w !! d) as [f |]; [| done].
  destruct (read_csv f) as [df0 |]; simpl; [| done].
  unfold frame_apply.
  destruct (count_label "DATE" (columns df0)) as [| [| k]] eqn:Hc; simpl; try done.
  destruct (rows_apply "DATE" (parse_date_cell to_datetime) (rows df0)); simpl;
    [| done].
  by intros [= <- _].
Qed.

End Idempotence.


(** ** The cache properties at the sample provider *)

Lemma fetched_records_carry_requested_date_witness :
  has_label "DATE" (columns fetched_frame) = true /\
  forall r, In r (rows fetched_frame) ->
    row_get "DATE" r = Some (CDate 739923) /\
    Forall (fun c => c = CDate 739923) (cells_under "DATE" r).
Proof.
  refine (fetched_records_carry_requested_date frame sample_read_csv sample_to_csv
            sample_to_datetime full_archive 739923 empty_folder fetched_frame
            (snd first_fetch) _ _).
  - apply cache_ok_empty.
  - vm_compute. reflexivity.
Defined.



(** The same archive one day earlier: the latest day is then 2026-11-02,
    which has data, and its spike is reported. *)
Example report_when_latest_day_has_data :
  exists table,
    fst (main frame sample_read_csv sample_to_csv sample_to_datetime
           ["X"] 739923 sample_archive empty_folder) = Ok (Report 739922 table) /\
    map RATIO table = [round64 (Fin 22.69)].
Proof. eexists. split; vm_compute; reflexivity. Qed.

(** ** The folder stays in order

    With a file format that keeps the table (dates as their text) and a
    reader of dates that inverts that text, every file the function writes
    loads back stamped with its own date: a folder that starts empty stays
    in order over any number of runs. *)

Section FormatLaws.

Variable file : Type.
Variable read_csv : file -> result frame.
Variable to_csv : frame -> file.
Variable to_datetime : cell -> result date.
Variable isoformat : date -> string.

Hypothesis csv_keeps_table :
  forall df, read_csv (to_csv df) = Ok (dates_as_text isoformat df).
Hypothesis text_parses_back :
  forall d, to_datetime (CStr (isoformat d)) = Ok d.
Hypothesis payload_has_no_dates :
  forall body raw, read_csv body = Ok raw -> no_date_cells raw.

Lemma written_file_is_stamped d body df df' :
  normalize_payload file read_csv d body = Ok df ->
  load_from_disk file read_csv to_datetime (to_csv df) = Ok df' ->
  stamped d df'.
Proof.
  intros Hn Hload.
  pose proof (normalize_payload_stamped _ _ _ _ _ Hn) as Hst.
  pose proof (normalize_payload_dated file read_csv d body df
                (payload_has_no_dates body) Hn) as Hd.
  destruct (decide (count_label "DATE" (columns df) = 1%nat)) as [Hc | Hc].
  - rewrite (load_written file read_csv to_csv to_datetime isoformat d df)
      in Hload; [| done | done | apply csv_keeps_table | apply text_parses_back].
    by injection Hload as <-.
  - unfold load_from_disk in Hload. rewrite csv_keeps_table in Hload.
    unfold frame_apply in Hload. simpl in Hload.
    by destruct (count_label "DATE" (columns df)) as [| [| n]].
Qed.

Lemma get_delivery_data_keeps_cache_ok archive d w res w' :
  cache_ok file read_csv to_datetime w ->
  get_delivery_data file read_csv to_csv to_datetime archive d w = (res, w') ->
  cache_ok file read_csv to_datetime w'.
Proof.
  intros Hok Hget.
  apply get_delivery_data_cases in Hget
    as [(f & _ & -> & _) | (_ & _ & [(_ & _ & Hf) | (_ & [Hn | Hn])])]; [done | | |].
  - intros d' f df. rewrite Hf. apply Hok.
  - destruct Hn as (e & _ & _ & Hf). intros d' f df. rewrite Hf. apply Hok.
  - destruct Hn as (df0 & Hn & _ & Hf). intros d' f df. rewrite Hf.
    destruct (decide (d = d')) as [<- | Hne].
    + rewrite lookup_insert_eq. intros [= <-].
      by apply (written_file_is_stamped d (text (archive d)) df0).
    + rewrite lookup_insert_ne by done. apply Hok.
Qed.

End FormatLaws.

(** ** Further examples *)

(** The ranking example: of two candidates with ratios 2.05 and 4.10 the
    second comes first. *)
Example ranking_of_two :
  map RATIO
    (sort_values_desc
       [ {| SYMBOL := "P"; DELIV_QTY := Fin 205; AVG_30_DELIV_QTY := Fin 100;
            RATIO := Fin 2.05 |};
         {| SYMBOL := "Q"; DELIV_QTY := Fin 410; AVG_30_DELIV_QTY := Fin 100;
            RATIO := Fin 4.10 |} ]) = [Fin 4.10; Fin 2.05].
Proof. vm_compute. reflexivity. Qed.

(** Two windows with equal ratios, as the insertion sort leaves them. *)
Example equal_ratios_follow_the_file :
  map SYMBOL (ranked 739923 (universe_rows ["A"; "B"] window_tie)) = ["B"; "A"] /\
  map SYMBOL (ranked 739923 (universe_rows ["A"; "B"] window_tie_mirrored)) = ["A"; "B"].
Proof. split; vm_compute; reflexivity. Qed.

(** Markers of a missing quantity in the archive, and a quantity. *)
Example to_numeric_examples :
  to_numeric (CStr " -") = Ok (CNum NaN) /\
  to_numeric (CStr "N/A") = Ok (CNum NaN) /\
  to_numeric (CStr " 3500") = Ok (CNum (Fin 3500)) /\
  normalize_label " Deliv Qty " = "DELIV_QTY".
Proof. repeat split; vm_compute; reflexivity. Qed.

(** A payload whose quantity is not a number is fetched all the same, with
    the quantity missing. *)
Example missing_quantity_is_not_a_failure :
  exists df w',
    get_delivery_data frame sample_read_csv sample_to_csv sample_to_datetime
      (fun _ => {| status_code := 200; text := sample_body "N/A" |})
      739923 empty_folder = (Ok (Some df), w') /\
    map deliv_qty_of (rows df) = [NaN] /\
    map symbol_of (rows df) = [Some "X"].
Proof. do 2 eexists. repeat split; vm_compute; reflexivity. Qed.

(** * Further properties of the code *)

(** ** The calendar: which days are returned, and when the walk fails *)

Section CalendarEdges.

Local Ltac mod7 := unfold weekday in *; Z.to_euclidean_division_equations; lia.

Lemma sorted_length_bound hi l : forall lo,
  StronglySorted Z.lt l -> Forall (fun d => lo < d < hi) l ->
  Z.of_nat (length l) <= Z.max 0 (hi - lo - 1).
Proof.
  induction l as [| x l IH]; intros lo Hs Hall; simpl; [lia |].
  apply StronglySorted_inv in Hs as [Hs Hx].
  apply Forall_cons in Hall as [Hlo Hall].
  assert (Hl : Forall (fun d => x < d < hi) l).
  { rewrite Forall_forall in *. intros d Hd.
    specialize (Hall d Hd). specialize (Hx d Hd). lia. }
  specialize (IH x Hs Hl). lia.
Qed.

Lemma last_of_sorted (l : list Z) y :
  StronglySorted Z.lt l -> last l = Some y -> forall d, In d l -> d <= y.
Proof.
  intros Hs Hlast d Hd. apply last_Some in Hlast as [l' ->].
  apply StronglySorted_app in Hs as (Hcross & _ & _).
  apply in_app_iff in Hd as [Hd | [<- | []]]; [| lia].
  assert (d < y); [| lia].
  apply Hcross; [by apply list_elem_of_In | by apply list_elem_of_singleton].
Qed.

(** X1.  The days returned are the most recent weekdays: no weekday between
    a returned day and the reference date is left out. *)
Theorem trading_days_are_the_most_recent n today days d0 d :
  get_last_trading_days n today = Ok days ->
  In d0 days -> d0 <= d < today -> weekday d < 5 -> In d days.
Proof.
  intros Hget Hd0 Hd Hwd.
  apply get_last_trading_days_exact in Hget as (_ & stop & _ & Hlow & Hall).
  rewrite Forall_forall in Hlow. apply list_elem_of_In, Hlow in Hd0.
  apply Hall; [lia | done].
Qed.

Lemma trading_days_are_the_most_recent_witness :
  get_last_trading_days 5 738893 = Ok [738886; 738887; 738888; 738889; 738890] /\
  In 738889 [738886; 738887; 738888; 738889; 738890].
Proof.
  assert (H : get_last_trading_days 5 738893 =
              Ok [738886; 738887; 738888; 738889; 738890])
    by (vm_compute; reflexivity).
  split; [exact H |].
  refine (trading_days_are_the_most_recent 5 738893 _ 738886 738889 H _ _ _).
  - by left.
  - lia.
  - vm_compute. reflexivity.
Defined.

(** X2.  For a positive [n] the last day of the list, which the module body
    takes as [yesterday], is the latest weekday before the reference date:
    a weekday at most three days back, with only week-end days after it. *)
Theorem latest_trading_day_is_recent n today days :
  0 < n -> get_last_trading_days n today = Ok days ->
  exists yesterday,
    last days = Some yesterday /\
    today - 3 <= yesterday < today /\
    weekday yesterday < 5 /\
    forall d, yesterday < d < today -> 5 <= weekday d.
Proof.
  intros Hn Hget.
  pose proof Hget as Hsound.
  apply get_last_trading_days_sound in Hsound as (Hlen & Hs & Hwk); [| lia].
  apply get_last_trading_days_exact in Hget as (_ & stop & _ & Hlow & Hall).
  destruct (last days) as [y |] eqn:Hlast.
  2: { apply last_None in Hlast as ->. simpl in Hlen. lia. }
  assert (Hy : In y days).
  { apply last_Some in Hlast as [l' ->]. apply in_app_iff. right. by left. }
  rewrite Forall_forall in Hlow, Hwk.
  pose proof (Hlow y (proj2 (list_elem_of_In _ _) Hy)) as Hy1.
  pose proof (Hwk y (proj2 (list_elem_of_In _ _) Hy)) as [_ Hy2].
  assert (Hafter : forall d, y < d < today -> 5 <= weekday d).
  { intros d Hd. destruct (Z.lt_ge_cases (weekday d) 5) as [Hwd | Hwd]; [| done].
    assert (Hin : In d days) by (apply Hall; [lia | done]).
    pose proof (last_of_sorted days y Hs Hlast d Hin). lia. }
  exists y. repeat split; [| lia | done | done].
  destruct (Z.le_gt_cases (today - 3) y) as [Hle | Hgt]; [done |].
  pose proof (Hafter (today - 1)). pose proof (Hafter (today - 2)).
  pose proof (Hafter (today - 3)). mod7.
Qed.

Lemma latest_trading_day_is_recent_witness :
  exists yesterday,
    last sample_days = Some yesterday /\
    739924 - 3 <= yesterday < 739924 /\
    weekday yesterday < 5 /\
    forall d, yesterday < d < 739924 -> 5 <= weekday d.
Proof.
  refine (latest_trading_day_is_recent 30 739924 sample_days _ _).
  - lia.
  - vm_compute. reflexivity.
Defined.

(** X3.  The only exception of [get_last_trading_days] is [OverflowError]. *)
Theorem get_last_trading_days_raises_only_overflow n today e :
  get_last_trading_days n today = Raise e -> e = OverflowError.
Proof. apply get_last_trading_days_raise. Qed.

Lemma get_last_trading_days_raises_only_overflow_witness :
  get_last_trading_days 30 1 = Raise OverflowError /\ OverflowError = OverflowError.
Proof.
  assert (H : get_last_trading_days 30 1 = Raise OverflowError)
    by (vm_compute; reflexivity).
  exact (conj H (get_last_trading_days_raises_only_overflow 30 1 OverflowError H)).
Defined.

(** X4.  The walk steps below the first day of the calendar, and the call
    raises [OverflowError], whenever the reference date has no more than [n]
    days before it: even when the [n]-th day is found on day 1, the step that
    follows it fails. *)
Theorem get_last_trading_days_overflows_near_min n today :
  0 < n -> today <= n + 1 ->
  get_last_trading_days n today = Raise OverflowError.
Proof.
  intros Hn Htoday.
  destruct (get_last_trading_days n today) as [days | e] eqn:Hget.
  - exfalso. pose proof Hget as Hsound.
    apply get_last_trading_days_sound in Hsound as (Hlen & _ & _); [| lia].
    apply get_last_trading_days_exact in Hget as (Hs & stop & Hstop & Hlow & _).
    pose proof (sorted_length_bound today days stop Hs Hlow).
    unfold MINORDINAL, date in *. lia.
  - by apply get_last_trading_days_raise in Hget as ->.
Qed.

Lemma get_last_trading_days_overflows_near_min_witness :
  0 < 4 /\ 5 <= 4 + 1 /\ get_last_trading_days 4 5 = Raise OverflowError.
Proof.
  split; [lia |]. split; [lia |].
  apply get_last_trading_days_overflows_near_min; lia.
Defined.



End CalendarEdges.

(** ** The log folder and the requests over a run *)

Section CacheEdges.

Variable file : Type.
Variable read_csv : file -> result frame.
Variable to_csv : frame -> file.
Variable to_datetime : cell -> result date.

Local Abbreviation get_delivery_data' :=
  (get_delivery_data file read_csv to_csv to_datetime).
Local Abbreviation fetch_all' := (fetch_all file read_csv to_csv to_datetime).

Lemma get_delivery_data_keeps_files archive d w res w' d' f :
  get_delivery_data' archive d w = (res, w') ->
  files w !! d' = Some f -> files w' !! d' = Some f.
Proof.
  intros Hget Hf.
  apply get_delivery_data_cases in Hget
    as [(f0 & _ & -> & _) | (Hnone & _ & [(_ & _ & ->) | (_ & [Hn | Hn])])];
    [done.. | |].
  - by destruct Hn as (e & _ & _ & ->).
  - destruct Hn as (df & _ & _ & ->).
    rewrite lookup_insert_ne; [done |]. intros ->. congruence.
Qed.

Lemma get_delivery_data_requests archive d w res w' :
  get_delivery_data' archive d w = (res, w') ->
  requests w' = requests w ++ (if uncached w d then download_requests d else []).
Proof.
  intros Hget. unfold uncached.
  apply get_delivery_data_cases in Hget
    as [(f0 & -> & -> & _) | (-> & Hreq & _)]; [by rewrite app_nil_r | done].
Qed.

Lemma get_delivery_data_cached_after archive d w res w' :
  get_delivery_data' archive d w = (Ok res, w') ->
  files w' !! d = None <-> files w !! d = None /\ status_code (archive d) <> 200.
Proof.
  intros Hget.
  apply get_delivery_data_cases in Hget
    as [(f0 & Hf & -> & _) | (Hnone & _ & [(Hs & _ & ->) | (Hs & [Hn | Hn])])].
  - rewrite Hf. split; [done | by intros [? _]].
  - done.
  - by destruct Hn as (e & _ & [=] & _).
  - destruct Hn as (df & _ & _ & ->). rewrite lookup_insert_eq.
    split; [done | by intros [_ ?]].
Qed.

Lemma uncached_other archive d w res w' d' :
  get_delivery_data' archive d w = (res, w') -> d' <> d ->
  uncached w' d' = uncached w d'.
Proof.
  intros Hget Hne. unfold uncached.
  by rewrite (get_delivery_data_other _ _ _ _ _ _ _ _ _ _ Hget Hne).
Qed.

Lemma fetch_all_files archive ds : forall w res w',
  fetch_all' archive ds w = (res, w') ->
  (forall d f, files w !! d = Some f -> files w' !! d = Some f) /\
  (forall d, ~ In d ds -> files w' !! d = files w !! d).
Proof.
  induction ds as [| d ds IH]; intros w res w'; simpl.
  - by intros [= <- <-].
  - destruct (get_delivery_data' archive d w) as [r1 w1] eqn:Hget.
    assert (Hstep : forall res2 w2, fetch_all' archive ds w1 = (res2, w2) ->
      (forall d0 f, files w !! d0 = Some f -> files w2 !! d0 = Some f) /\
      (forall d0, ~ In d0 (d :: ds) -> files w2 !! d0 = files w !! d0)).
    { intros res2 w2 Hrest. destruct (IH _ _ _ Hrest) as [Hkeep Hout]. split.
      - intros d0 f Hf. apply Hkeep. by eapply get_delivery_data_keeps_files.
      - intros d0 Hd0. rewrite Hout by (intros ?; apply Hd0; by right).
        eapply get_delivery_data_other; [exact Hget |].
        intros ->. apply Hd0. by left. }
    destruct r1 as [[df |] | e].
    + destruct (fetch_all' archive ds w1) as [[rest | e] w2] eqn:Hrest;
        intros [= <- <-]; by eapply Hstep.
    + apply Hstep.
    + intros [= <- <-]. split.
      * intros d0 f Hf. by eapply get_delivery_data_keeps_files.
      * intros d0 Hd0. eapply get_delivery_data_other; [exact Hget |].
        intros ->. apply Hd0. by left.
Qed.

(** X6.  The log folder only grows over the download loop: a file that is
    there stays as it is, whatever the archive answers, and no day outside
    the requested ones gets a file or loses one. *)
Theorem log_folder_is_append_only archive ds w res w' :
  fetch_all file read_csv to_csv to_datetime archive ds w = (res, w') ->
  (forall d f, files w !! d = Some f -> files w' !! d = Some f) /\
  (forall d, ~ In d ds -> files w' !! d = files w !! d).
Proof. apply fetch_all_files. Qed.

(** X7.  A download loop that completes over pairwise distinct days has made
    two requests, the home page and then the archive, for each day without a
    file at the start, in the order of the days, and no other request. *)
Theorem fetch_all_requests archive ds : forall w all_data w',
  NoDup ds ->
  fetch_all' archive ds w = (Ok all_data, w') ->
  requests w' =
    requests w ++ flat_map download_requests (List.filter (uncached w) ds).
Proof.
  induction ds as [| d ds IH]; intros w all_data w' Hnd; simpl.
  - intros [= <- <-]. by rewrite app_nil_r.
  - apply NoDup_cons in Hnd as [Hd Hnd].
    destruct (get_delivery_data' archive d w) as [r1 w1] eqn:Hget.
    assert (Hstep : forall rest w2, fetch_all' archive ds w1 = (Ok rest, w2) ->
      requests w2 = requests w ++
        flat_map download_requests
          (if uncached w d then d :: List.filter (uncached w) ds
           else List.filter (uncached w) ds)).
    { intros rest w2 Hrest. rewrite (IH _ _ _ Hnd Hrest).
      rewrite (get_delivery_data_requests _ _ _ _ _ Hget).
      replace (List.filter (uncached w1) ds) with (List.filter (uncached w) ds).
      - destruct (uncached w d); simpl; by rewrite <- ?app_assoc, ?app_nil_r.
      - apply filter_ext_in. intros d0 Hd0. symmetry.
        eapply uncached_other; [exact Hget |]. intros ->.
        by apply Hd, list_elem_of_In. }
    destruct r1 as [[df |] | e]; [| by apply Hstep | done].
    destruct (fetch_all' archive ds w1) as [[rest | e] w2] eqn:Hrest; [| done].
    intros [= <- <-]. by eapply Hstep.
Qed.

Lemma fetch_all_cached_after archive ds : forall w all_data w',
  NoDup ds ->
  fetch_all' archive ds w = (Ok all_data, w') ->
  forall d, In d ds ->
    files w' !! d = None <-> files w !! d = None /\ status_code (archive d) <> 200.
Proof.
  induction ds as [| d ds IH]; intros w all_data w' Hnd; simpl; [by intros _ d [] |].
  apply NoDup_cons in Hnd as [Hd Hnd].
  destruct (get_delivery_data' archive d w) as [r1 w1] eqn:Hget.
  assert (Hstep : forall r rest w2,
    r1 = Ok r -> fetch_all' archive ds w1 = (Ok rest, w2) ->
    forall d0, d = d0 \/ In d0 ds ->
      files w2 !! d0 = None <->
      files w !! d0 = None /\ status_code (archive d0) <> 200).
  { intros r rest w2 -> Hrest d0 [<- | Hd0].
    - destruct (fetch_all_files archive ds _ _ _ Hrest) as [_ Hout].
      rewrite Hout by (by rewrite <- list_elem_of_In).
      by eapply get_delivery_data_cached_after.
    - rewrite (IH _ _ _ Hnd Hrest d0 Hd0).
      rewrite (get_delivery_data_other _ _ _ _ _ _ _ _ _ d0 Hget); [done |].
      intros ->. by apply Hd, list_elem_of_In. }
  destruct r1 as [[df |] | e]; [| | done].
  - destruct (fetch_all' archive ds w1) as [[rest | e] w2] eqn:Hrest; [| done].
    intros [= <- <-]. by apply (Hstep (Some df) rest).
  - intros Hrest. by apply (Hstep None all_data).
Qed.

(** X8.  After a download loop that completes over pairwise distinct days, a
    requested day is without a file exactly when it had none before and the
    archive did not answer 200: every day the archive serves is cached, and
    a failed day leaves no entry behind. *)
Theorem requested_days_cached_iff_served archive ds w all_data w' d :
  NoDup ds ->
  fetch_all file read_csv to_csv to_datetime archive ds w = (Ok all_data, w') ->
  In d ds ->
  files w' !! d = None <-> files w !! d = None /\ status_code (archive d) <> 200.
Proof. intros Hnd Hrun. by apply (fetch_all_cached_after archive ds w all_data). Qed.

(** X9.  A day the archive does not serve is absorbed: the call returns
    [None], writes no file and has made the two requests. *)
Theorem failed_fetch_is_absorbed archive d w :
  files w !! d = None -> status_code (archive d) <> 200 ->
  get_delivery_data' archive d w =
    (Ok None, {| files := files w; requests := requests w ++ download_requests d |}).
Proof.
  intros Hf Hs. unfold get_delivery_data. rewrite Hf.
  apply Z.eqb_neq in Hs. by rewrite Hs.
Qed.

End CacheEdges.

(** ** What a download returns *)

Section Download.

Variable file : Type.
Variable read_csv : file -> result frame.
Variable to_csv : frame -> file.
Variable to_datetime : cell -> result date.

Local Abbreviation get_delivery_data' :=
  (get_delivery_data file read_csv to_csv to_datetime).
Local Abbreviation normalize_payload' := (normalize_payload file read_csv).

Lemma row_apply_coerce c r : row_apply c to_numeric r = Ok (row_coerce c r).
Proof.
  induction r as [| [k v] r IH]; simpl; [done |].
  rewrite IH. destruct (String.eqb k c); simpl; [by destruct v | done].
Qed.

Lemma rows_apply_coerce c l : rows_apply c to_numeric l = Ok (map (row_coerce c) l).
Proof.
  induction l as [| r l IH]; simpl; [done |]. by rewrite row_apply_coerce, IH.
Qed.

Lemma frame_apply_coerce c df :
  count_label c (columns df) = 1%nat ->
  frame_apply c to_numeric df =
    Ok {| columns := columns df; rows := map (row_coerce c) (rows df) |}.
Proof. intros Hc. unfold frame_apply. by rewrite Hc, rows_apply_coerce. Qed.

Lemma frame_apply_missing c f df :
  count_label c (columns df) = 0%nat -> frame_apply c f df = Raise KeyError.
Proof. intros Hc. unfold frame_apply. by rewrite Hc. Qed.

(** The download in closed form, when each quantity label occurs once. *)
Lemma normalize_payload_closed d body raw :
  read_csv body = Ok raw ->
  count_label "DELIV_QTY" (map normalize_label (columns raw)) = 1%nat ->
  count_label "TTL_TRD_QNTY" (map normalize_label (columns raw)) = 1%nat ->
  normalize_payload' d body =
    Ok (frame_set "DATE" (CDate d)
          {| columns := map normalize_label (columns raw);
             rows := map (row_coerce "TTL_TRD_QNTY")
                       (map (row_coerce "DELIV_QTY")
                          (map normalize_row (rows raw))) |}).
Proof.
  intros Hraw Hq Ht. unfold normalize_payload. rewrite Hraw. simpl.
  rewrite frame_apply_coerce by done. simpl.
  by rewrite frame_apply_coerce by done.
Qed.

Lemma normalize_payload_KeyError d body raw :
  read_csv body = Ok raw ->
  count_label "DELIV_QTY" (map normalize_label (columns raw)) = 0%nat \/
  (count_label "DELIV_QTY" (map normalize_label (columns raw)) = 1%nat /\
   count_label "TTL_TRD_QNTY" (map normalize_label (columns raw)) = 0%nat) ->
  normalize_payload' d body = Raise KeyError.
Proof.
  intros Hraw [Hq | [Hq Ht]]; unfold normalize_payload; rewrite Hraw; simpl.
  - by rewrite frame_apply_missing.
  - rewrite frame_apply_coerce by done. simpl. by rewrite frame_apply_missing.
Qed.

Lemma cells_under_row_set k c v r :
  k <> c -> cells_under k (row_set c v r) = cells_under k r.
Proof.
  intros Hne. unfold cells_under, row_set.
  destruct (has_label c (map fst r)).
  - unfold row_replace. induction r as [| [k0 x] r IH]; simpl; [done |].
    destruct (String.eqb_spec k0 c) as [-> | Hk0]; simpl.
    + apply String.eqb_neq in Hne. rewrite String.eqb_sym in Hne.
      by rewrite Hne.
    + destruct (String.eqb k0 k); simpl; by rewrite IH.
  - rewrite List.filter_app, map_app. simpl.
    apply String.eqb_neq in Hne. rewrite String.eqb_sym in Hne.
    rewrite Hne. simpl. by rewrite app_nil_r.
Qed.

Lemma cells_under_row_coerce_same c r :
  cells_under c (row_coerce c r) = map coerced (cells_under c r).
Proof.
  unfold cells_under, row_coerce.
  induction r as [| [k x] r IH]; simpl; [done |].
  destruct (String.eqb k c) eqn:E; simpl; rewrite E; simpl; by rewrite IH.
Qed.

Lemma cells_under_row_coerce_other k c r :
  k <> c -> cells_under k (row_coerce c r) = cells_under k r.
Proof.
  intros Hne. unfold cells_under, row_coerce.
  induction r as [| [k0 x] r IH]; simpl; [done |].
  destruct (String.eqb_spec k0 c) as [-> | Hk0]; simpl.
  - apply String.eqb_neq in Hne. rewrite String.eqb_sym in Hne. by rewrite Hne.
  - destruct (String.eqb k0 k); simpl; by rewrite IH.
Qed.

Lemma coerced_is_number c : is_number (coerced c) = true.
Proof. by destruct c. Qed.

Lemma get_delivery_data_download archive d w df :
  files w !! d = None -> status_code (archive d) = 200 ->
  normalize_payload' d (text (archive d)) = Ok df ->
  get_delivery_data' archive d w =
    (Ok (Some df),
     {| files := <[d := to_csv df]> (files w);
        requests := requests w ++ download_requests d |}).
Proof.
  intros Hf Hs Hn. unfold get_delivery_data. rewrite Hf.
  apply Z.eqb_eq in Hs. by rewrite Hs, Hn.
Qed.

(** X10.  A payload with ASCII labels that has no column [DELIV_QTY], or
    has it and no column [TTL_TRD_QNTY] (labels compared after
    normalisation), makes the call raise [KeyError]; the two requests have
    been made and no file is written. *)
Theorem missing_quantity_column_raises_KeyError archive d w raw :
  files w !! d = None -> status_code (archive d) = 200 ->
  read_csv (text (archive d)) = Ok raw ->
  ascii_labels raw = true ->
  count_label "DELIV_QTY" (map normalize_label (columns raw)) = 0%nat \/
  (count_label "DELIV_QTY" (map normalize_label (columns raw)) = 1%nat /\
   count_label "TTL_TRD_QNTY" (map normalize_label (columns raw)) = 0%nat) ->
  get_delivery_data' archive d w =
    (Raise KeyError,
     {| files := files w; requests := requests w ++ download_requests d |}).
Proof.
  intros Hf Hs Hraw _ Hc. unfold get_delivery_data. rewrite Hf.
  apply Z.eqb_eq in Hs. rewrite Hs. simpl.
  by rewrite (normalize_payload_KeyError d _ raw Hraw Hc).
Qed.

(** X11.  With ASCII labels and each of the two quantity labels on one
    column, the download succeeds whatever the fields hold: the frame has
    one row for each row of the payload, every cell under [DELIV_QTY] and
    [TTL_TRD_QNTY] is a number (possibly missing), and the frame is what is
    filed under the date. *)
Theorem download_coerces_quantities archive d w raw :
  files w !! d = None -> status_code (archive d) = 200 ->
  read_csv (text (archive d)) = Ok raw ->
  ascii_labels raw = true ->
  count_label "DELIV_QTY" (map normalize_label (columns raw)) = 1%nat ->
  count_label "TTL_TRD_QNTY" (map normalize_label (columns raw)) = 1%nat ->
  exists df,
    get_delivery_data' archive d w =
      (Ok (Some df),
       {| files := <[d := to_csv df]> (files w);
          requests := requests w ++ download_requests d |}) /\
    length (rows df) = length (rows raw) /\
    Forall (fun r =>
              Forall (fun c => is_number c = true)
                (cells_under "DELIV_QTY" r ++ cells_under "TTL_TRD_QNTY" r))
           (rows df).
Proof.
  intros Hf Hs Hraw _ Hq Ht. eexists. split; [| split].
  - apply get_delivery_data_download; [done | done |].
    by apply (normalize_payload_closed d _ raw).
  - simpl. by rewrite !length_map.
  - simpl. rewrite !Forall_fmap. apply Forall_forall. intros r _. simpl.
    rewrite !cells_under_row_set by done.
    rewrite cells_under_row_coerce_same.
    rewrite cells_under_row_coerce_other by done.
    rewrite cells_under_row_coerce_same.
    apply Forall_app. split; apply Forall_fmap, Forall_forall; intros c _;
      apply coerced_is_number.
Qed.

(** X12.  The other fields pass through (ASCII labels, each quantity label
    on one column): under every label but the two quantities and [DATE],
    each row of the returned frame holds the cells that the payload row
    holds under the labels normalising to it, and the labels of the frame
    are the normalised labels of the payload, with [DATE] added at the end
    when no label normalises to it. *)
Theorem download_passes_other_fields_through archive d w raw :
  files w !! d = None -> status_code (archive d) = 200 ->
  read_csv (text (archive d)) = Ok raw ->
  ascii_labels raw = true ->
  count_label "DELIV_QTY" (map normalize_label (columns raw)) = 1%nat ->
  count_label "TTL_TRD_QNTY" (map normalize_label (columns raw)) = 1%nat ->
  exists df w',
    get_delivery_data' archive d w = (Ok (Some df), w') /\
    columns df =
      (if has_label "DATE" (map normalize_label (columns raw))
       then map normalize_label (columns raw)
       else map normalize_label (columns raw) ++ ["DATE"]) /\
    forall k, k <> "DELIV_QTY" -> k <> "TTL_TRD_QNTY" -> k <> "DATE" ->
      map (cells_under k) (rows df) =
      map (fun r => cells_under k (normalize_row r)) (rows raw).
Proof.
  intros Hf Hs Hraw _ Hq Ht. do 2 eexists. split; [| split].
  - apply get_delivery_data_download; [done | done |].
    by apply (normalize_payload_closed d _ raw).
  - done.
  - intros k Hk1 Hk2 Hk3. simpl. rewrite !map_map. apply map_ext. intros r.
    rewrite cells_under_row_set by done.
    by rewrite !cells_under_row_coerce_other by done.
Qed.

End Download.

(** ** The module body: outage, report rows, ratios, the index list *)

Section ModuleBody.

Variable file : Type.
Variable read_csv : file -> result frame.
Variable to_csv : frame -> file.
Variable to_datetime : cell -> result date.

Local Abbreviation fetch_all' := (fetch_all file read_csv to_csv to_datetime).
Local Abbreviation main' := (main file read_csv to_csv to_datetime).

Lemma fetch_all_all_fail archive ds : forall w,
  (forall d, In d ds -> files w !! d = None /\ status_code (archive d) <> 200) ->
  fetch_all' archive ds w =
    (Ok [], {| files := files w;
               requests := requests w ++ flat_map download_requests ds |}).
Proof.
  induction ds as [| d ds IH]; intros w Hall; simpl.
  - rewrite app_nil_r. by destruct w.
  - destruct (Hall d (or_introl eq_refl)) as [Hf Hs].
    unfold get_delivery_data. rewrite Hf. apply Z.eqb_neq in Hs. rewrite Hs. simpl.
    rewrite IH; simpl.
    + by rewrite <- app_assoc.
    + intros d0 Hd0. apply Hall. by right.
Qed.

(** X13.  When the folder has no file for any trading day and the archive
    serves none of them, the run ends on the message for no data: no frame
    is collected, the folder is left as it was, and each day has cost its two
    requests. *)
Theorem total_outage_gives_no_data nifty500_symbols today archive w trading_days :
  get_last_trading_days TRADING_DAYS_LOOKBACK today = Ok trading_days ->
  (forall d, In d trading_days ->
     files w !! d = None /\ status_code (archive d) <> 200) ->
  main' nifty500_symbols today archive w =
    (Ok NoDeliveryData,
     {| files := files w;
        requests := requests w ++ flat_map download_requests trading_days |}).
Proof.
  intros Hdays Hall. unfold main. by rewrite Hdays, fetch_all_all_fail.
Qed.

End ModuleBody.

Section ReportRows.

Variable nifty500_symbols : list string.
Variable all_data : list frame.

Local Abbreviation final_df := (universe_rows nifty500_symbols all_data).

(** X14.  A report is written only with rows in it, under the name of the
    last day of the calendar, and every row is a breakout: its symbol cell is
    the link for a symbol of the index, and its quantity is strictly above
    three times its average, neither of them missing. *)
Theorem report_rows_are_breakouts trading_days y table :
  analyse nifty500_symbols trading_days all_data = Ok (Report y table) ->
  last trading_days = Some y /\
  table <> [] /\
  Forall (fun row =>
            (exists s, In s nifty500_symbols /\ SYMBOL row = hyperlink s) /\
            num_gtb (DELIV_QTY row)
                    (num_mul (Fin 3) (AVG_30_DELIV_QTY row)) = true /\
            is_nan (DELIV_QTY row) = false /\
            is_nan (AVG_30_DELIV_QTY row) = false)
         table.
Proof.
  unfold analyse. destruct all_data as [| df rest] eqn:Hdata; [done |].
  rewrite <- Hdata.
  destruct (negb (has_label "SYMBOL" _)); [done |].
  destruct (last trading_days) as [y' |]; [| done].
  destruct (negb (has_label "DATE" _)); [done |].
  destruct (negb (has_label "DELIV_QTY" _)); [done |].
  destruct (ranked y' final_df) as [| c l] eqn:Hr; [done |].
  intros [= <- <-]. split; [done |]. split; [done |].
  apply Forall_forall. intros row Hrow.
  apply list_elem_of_In in Hrow.
  change (In row (map with_hyperlink (c :: l))) in Hrow.
  apply in_map_iff in Hrow as (c0 & <- & Hc0).
  rewrite <- Hr in Hc0.
  pose proof (ranked_candidate_inv _ _ _ _ Hc0) as (Hu & _).
  apply in_ranked in Hc0 as (m & _ & Hsp & ->). simpl.
  split; [by exists (m_SYMBOL m) |]. split; [done |].
  unfold spike, num_gtb in Hsp.
  by destruct (m_DELIV_QTY m), (m_AVG_30_DELIV_QTY m).
Qed.

End ReportRows.

(** X16.  Only membership in the index list matters: two lists with the
    same symbols, in any order and with any repetitions, give the same
    report. *)
Theorem index_list_is_a_set u1 u2 all_data yesterday :
  (forall s, In s u1 <-> In s u2) ->
  ranked yesterday (universe_rows u1 all_data) =
  ranked yesterday (universe_rows u2 all_data).
Proof.
  intros Hsame. f_equal. unfold universe_rows. apply filter_ext. intros r.
  unfold isin. destruct (symbol_of r) as [s |]; [| done].
  destruct (existsb (String.eqb s) u1) eqn:E1, (existsb (String.eqb s) u2) eqn:E2;
    try done.
  - apply existsb_exists in E1 as (x & Hx & Heq). apply String.eqb_eq in Heq as <-.
    apply Hsame in Hx.
    assert (existsb (String.eqb s) u2 = true); [| congruence].
    apply existsb_exists. exists s. by rewrite String.eqb_refl.
  - apply existsb_exists in E2 as (x & Hx & Heq). apply String.eqb_eq in Heq as <-.
    apply Hsame in Hx.
    assert (existsb (String.eqb s) u1 = true); [| congruence].
    apply existsb_exists. exists s. by rewrite String.eqb_refl.
Qed.

(** ** The threshold and the ratio in binary64 *)

Section Binary64.

Lemma two_pos e : (0 < 2 ^ e)%Q.
Proof. by apply Qpower_0_lt. Qed.

Lemma two_le n m : n <= m -> (2 ^ n <= 2 ^ m)%Q.
Proof. intros H. by apply Qpower_le_compat_l. Qed.

Lemma two_lt n m : n < m -> (2 ^ n < 2 ^ m)%Q.
Proof. intros H. by apply Qpower_lt_compat_l. Qed.

Lemma two_plus n m : (2 ^ (n + m) == 2 ^ n * 2 ^ m)%Q.
Proof. by apply Qpower_plus. Qed.

Lemma two_inject n : 0 <= n -> (2 ^ n == inject_Z (2 ^ n))%Q.
Proof. intros H. by rewrite Zpower_Qpower. Qed.

(** A positive rational between the powers of two given by the sizes of
    its numerator and denominator. *)
Lemma Qlog2_bounds n d :
  0 < n ->
  (2 ^ (Z.log2 n - Z.log2 (Z.pos d) - 1) <= n # d /\
   n # d < 2 ^ (Z.log2 n - Z.log2 (Z.pos d) + 1))%Q.
Proof.
  intros Hn.
  pose proof (Z.log2_spec n Hn) as [Ha1 Ha2].
  pose proof (Z.log2_spec (Z.pos d) (Pos2Z.is_pos d)) as [Hb1 Hb2].
  pose proof (Z.log2_nonneg n) as Ha0. pose proof (Z.log2_nonneg (Z.pos d)) as Hb0.
  generalize dependent (Z.log2 n). generalize dependent (Z.log2 (Z.pos d)).
  intros b Hb1 Hb2 Hb0 a Ha1 Ha2 Ha0.
  replace (Z.succ b) with (b + 1) in Hb2 by lia.
  replace (Z.succ a) with (a + 1) in Ha2 by lia.
  assert (Hx : (n # d == inject_Z n / inject_Z (Z.pos d))%Q) by apply Qmake_Qdiv.
  assert (Hd : (0 < inject_Z (Z.pos d))%Q) by (unfold Qlt; simpl; lia).
  split.
  - rewrite Hx. apply Qle_shift_div_l; [done |].
    replace (a - b - 1) with (a - (b + 1)) by lia.
    rewrite Qpower_minus by done.
    unfold Qdiv. rewrite <- Qmult_assoc, (Qmult_comm (/ _)), Qmult_assoc.
    apply Qle_shift_div_r; [apply two_pos |].
    rewrite !two_inject by lia.
    rewrite <- !inject_Z_mult, <- Zle_Qle.
    nia.
  - rewrite Hx. apply Qlt_shift_div_r; [done |].
    replace (a - b + 1) with ((a + 1) - b) by lia.
    rewrite Qpower_minus by done.
    unfold Qdiv. rewrite <- Qmult_assoc, (Qmult_comm (/ _)), Qmult_assoc.
    apply Qlt_shift_div_l; [apply two_pos |].
    rewrite !two_inject by lia.
    rewrite <- !inject_Z_mult, <- Zlt_Qlt.
    nia.
Qed.

Lemma Qlog2_spec x :
  (0 < x)%Q -> (2 ^ Qlog2 x <= x /\ x < 2 ^ (Qlog2 x + 1))%Q.
Proof.
  intros Hx. destruct x as [n d].
  assert (Hn : 0 < n) by (unfold Qlt in Hx; simpl in Hx; lia).
  destruct (Qlog2_bounds n d Hn) as [Hlo Hhi]. unfold Qlog2. cbn [Qnum Qden].
  set (l := Z.log2 n - Z.log2 (Z.pos d)) in *.
  destruct (Qle_bool (2 ^ l) (n # d)) eqn:E.
  - apply Qle_bool_iff in E. by split.
  - split; [done |]. replace (l - 1 + 1) with l by lia.
    apply Qnot_le_lt. intros H. apply Qle_bool_iff in H. congruence.
Qed.

Lemma Qlog2_mono x y : (0 < x)%Q -> (x <= y)%Q -> Qlog2 x <= Qlog2 y.
Proof.
  intros Hx Hxy.
  assert (Hy : (0 < y)%Q) by (by eapply Qlt_le_trans).
  destruct (Qlog2_spec x Hx) as [Hx1 _], (Qlog2_spec y Hy) as [_ Hy2].
  destruct (Z.le_gt_cases (Qlog2 x) (Qlog2 y)) as [H | H]; [done |]. exfalso.
  assert (H2 : (2 ^ (Qlog2 y + 1) <= 2 ^ Qlog2 x)%Q) by (apply two_le; lia).
  apply (Qlt_irrefl y).
  eapply Qlt_le_trans; [exact Hy2 |].
  eapply Qle_trans; [exact H2 |]. by eapply Qle_trans.
Qed.


Lemma rint_bounds q : Qfloor q <= rint q <= Qfloor q + 1.
Proof.
  unfold rint. destruct (q - inject_Z (Qfloor q) ?= 1 # 2)%Q; [| lia..].
  destruct (Z.even (Qfloor q)); lia.
Qed.

Lemma rint_mono x y : (x <= y)%Q -> rint x <= rint y.
Proof.
  intros Hxy. pose proof (Qfloor_resp_le x y Hxy) as Hf.
  pose proof (rint_bounds x) as Hx. pose proof (rint_bounds y) as Hy.
  destruct (Z.eq_dec (Qfloor x) (Qfloor y)) as [Heq | Hne]; [| lia].
  unfold rint. rewrite <- Heq.
  destruct (x - inject_Z (Qfloor x) ?= 1 # 2)%Q eqn:Ex;
    destruct (y - inject_Z (Qfloor x) ?= 1 # 2)%Q eqn:Ey;
    try (destruct (Z.even (Qfloor x))); try lia; exfalso;
    first [apply Qeq_alt in Ex | apply Qlt_alt in Ex | apply Qgt_alt in Ex];
    first [apply Qeq_alt in Ey | apply Qlt_alt in Ey | apply Qgt_alt in Ey];
    lra.
Qed.

Lemma rint_inject z : rint (inject_Z z) = z.
Proof.
  unfold rint. rewrite Qfloor_Z.
  assert (H : (inject_Z z - inject_Z z ?= 1 # 2)%Q = Lt).
  { assert (H0 : (inject_Z z - inject_Z z == 0)%Q) by ring. by rewrite H0. }
  by rewrite H.
Qed.

Lemma rint_le z x : (x <= inject_Z z)%Q -> rint x <= z.
Proof. intros H. apply rint_mono in H. by rewrite rint_inject in H. Qed.

Lemma rint_ge z x : (inject_Z z <= x)%Q -> z <= rint x.
Proof. intros H. apply rint_mono in H. by rewrite rint_inject in H. Qed.

Lemma ulp_exponent_mono x y : (0 < x)%Q -> (x <= y)%Q -> ulp_exponent x <= ulp_exponent y.
Proof. intros Hx Hxy. pose proof (Qlog2_mono x y Hx Hxy). unfold ulp_exponent. lia. Qed.

Lemma nearest_mono x y : (0 < x)%Q -> (x <= y)%Q -> (nearest x <= nearest y)%Q.
Proof.
  intros Hx Hxy.
  assert (Hy : (0 < y)%Q) by (by eapply Qlt_le_trans).
  pose proof (ulp_exponent_mono x y Hx Hxy) as He.
  unfold nearest.
  destruct (Z.eq_dec (ulp_exponent x) (ulp_exponent y)) as [Heq | Hne].
  - rewrite <- Heq. apply Qmult_le_compat_r; [| apply Qlt_le_weak, two_pos].
    rewrite <- Zle_Qle. apply rint_mono.
    apply Qmult_le_compat_r; [done |]. apply Qlt_le_weak, Qinv_lt_0_compat, two_pos.
  - assert (Hlt : ulp_exponent x < ulp_exponent y) by lia.
    destruct (Qlog2_spec x Hx) as [_ Hx2], (Qlog2_spec y Hy) as [Hy1 _].
    apply Qle_trans with (2 ^ (ulp_exponent y + 52))%Q.
    + (* the significand of [x] is at most 2^53 *)
      apply Qle_trans with (inject_Z (2 ^ 53) * 2 ^ ulp_exponent x)%Q.
      * apply Qmult_le_compat_r; [| apply Qlt_le_weak, two_pos].
        rewrite <- Zle_Qle. apply rint_le.
        apply Qle_shift_div_r; [apply two_pos |].
        rewrite <- two_inject by lia. rewrite <- two_plus.
        apply Qlt_le_weak. eapply Qlt_le_trans; [exact Hx2 |].
        apply two_le. unfold ulp_exponent. lia.
      * rewrite <- two_inject by lia. rewrite <- two_plus. apply two_le. lia.
    + (* the significand of [y] is at least 2^52 *)
      apply Qle_trans with (inject_Z (2 ^ 52) * 2 ^ ulp_exponent y)%Q.
      * rewrite <- two_inject by lia. rewrite <- two_plus.
        apply two_le. lia.
      * apply Qmult_le_compat_r; [| apply Qlt_le_weak, two_pos].
        rewrite <- Zle_Qle. apply rint_ge.
        apply Qle_shift_div_l; [apply two_pos |].
        rewrite <- two_inject by lia. rewrite <- two_plus.
        eapply Qle_trans; [| exact Hy1].
        apply two_le. unfold ulp_exponent in *. lia.
Qed.

Lemma nearest_nonneg x : (0 < x)%Q -> (0 <= nearest x)%Q.
Proof.
  intros Hx. unfold nearest.
  apply Qmult_le_0_compat; [| apply Qlt_le_weak, two_pos].
  change 0%Q with (inject_Z 0). rewrite <- Zle_Qle. apply rint_ge.
  apply Qle_shift_div_l; [apply two_pos |]. rewrite Qmult_0_l. by apply Qlt_le_weak.
Qed.

Lemma b64_pos_mono x y :
  (0 < x)%Q -> (x <= y)%Q -> num_leb (b64_pos x) (b64_pos y) = true.
Proof.
  intros Hx Hxy. pose proof (nearest_mono x y Hx Hxy) as Hn.
  unfold b64_pos.
  destruct (Qle_bool (2 ^ 1024) (nearest x)) eqn:Ex,
           (Qle_bool (2 ^ 1024) (nearest y)) eqn:Ey; simpl; try done.
  - apply Qle_bool_iff in Ex.
    assert (Qle_bool (2 ^ 1024) (nearest y) = true); [| congruence].
    apply Qle_bool_iff. by eapply Qle_trans.
  - rewrite negb_involutive. apply Qle_bool_iff. by rewrite !Qred_correct.
Qed.

Lemma b64_of_pos x : (0 < x)%Q -> b64 x = b64_pos x.
Proof. intros Hx. unfold b64. apply Qgt_alt in Hx. by rewrite Hx. Qed.

Lemma b64_mono x y : (0 < x)%Q -> (x <= y)%Q -> num_leb (b64 x) (b64 y) = true.
Proof.
  intros Hx Hxy. rewrite !b64_of_pos; [by apply b64_pos_mono | | done].
  by eapply Qlt_le_trans.
Qed.


Lemma b64_pos_nonneg x : (0 < x)%Q -> num_leb (Fin 0) (b64_pos x) = true.
Proof.
  intros Hx. pose proof (nearest_nonneg x Hx) as Hn.
  unfold b64_pos.
  destruct (Qle_bool (2 ^ 1024) (nearest x)); simpl; [done |].
  rewrite negb_involutive. apply Qle_bool_iff. by rewrite Qred_correct.
Qed.

(** A binary64 number below [x] is below the rounding of [x]. *)
Lemma b64_above c x :
  b64 c = Fin c -> (0 < c)%Q -> (c <= x)%Q -> num_leb (Fin c) (b64 x) = true.
Proof. intros Hc Hpos Hcx. rewrite <- Hc. by apply b64_mono. Qed.

Lemma round2_64_above r :
  num_leb (Fin 3) r = true -> num_leb (Fin 3) (round2_64 r) = true.
Proof.
  destruct r as [r | | |]; try done. intros Hr. apply num_leb_Fin in Hr.
  unfold round2_64, mul64. cbn [num_mul round64].
  assert (Hs : num_leb (Fin 300) (b64 (Qred (r * 100))) = true).
  { apply b64_above; [by vm_compute | done |]. rewrite Qred_correct. lra. }
  destruct (b64 (Qred (r * 100))) as [s | | |]; try done.
  apply num_leb_Fin in Hs. cbn [rint64]. unfold div64. cbn [num_div].
  change (Qeq_bool 100 0) with false. cbn [round64].
  apply b64_above; [by vm_compute | done |]. rewrite Qred_correct.
  apply Qle_shift_div_l; [done |].
  change (3 * 100)%Q with (inject_Z 300). rewrite <- Zle_Qle. by apply rint_ge.
Qed.

(** The machine's test errs on one side only: a binary64 quantity above the
    rounded product is above the exact product. *)
Lemma spike64_exact q a :
  b64 q = Fin q -> (0 < a)%Q -> spike64 (Fin q) (Fin a) = true -> (3 * a < q)%Q.
Proof.
  intros Hq Ha Hsp. unfold spike64, num_gtb, mul64 in Hsp.
  cbn [num_mul round64] in Hsp.
  assert (H3a : (0 < Qred (3 * a))%Q) by (rewrite Qred_correct; lra).
  pose proof (b64_pos_nonneg _ H3a) as Ht. rewrite <- b64_of_pos in Ht by done.
  destruct (b64 (Qred (3 * a))) as [t | | |] eqn:Et; try done.
  apply num_leb_Fin in Ht. apply num_ltb_Fin in Hsp.
  apply Qnot_le_lt. intros Hle.
  assert (Hmono : num_leb (b64 q) (b64 (Qred (3 * a))) = true).
  { apply b64_mono; [lra |]. by rewrite Qred_correct. }
  rewrite Hq, Et in Hmono. apply num_leb_Fin in Hmono. lra.
Qed.

(** X15.  In binary64 arithmetic, a row whose quantity passes the test
    [DELIV_QTY > 3 * AVG_30_DELIV_QTY] against a positive average has a
    [RATIO] of at least 3.0: neither the rounding of the product, nor that
    of the quotient, nor [round(2)] can bring it below. *)
Theorem reported_ratio_is_at_least_three q a :
  round64 q = q -> num_ltb (Fin 0) a = true ->
  spike64 q a = true ->
  num_leb (Fin 3) (ratio64 q a) = true.
Proof.
  intros Hq Ha Hsp. unfold ratio64. apply round2_64_above.
  destruct a as [a | | |]; try done; [| by destruct q].
  apply num_ltb_Fin in Ha.
  destruct q as [q | | |]; try done.
  - (* a finite quantity *)
    pose proof (spike64_exact q a Hq Ha Hsp) as Hqa.
    unfold div64. cbn [num_div].
    assert (Hnz : Qeq_bool a 0 = false).
    { destruct (Qeq_bool a 0) eqn:E; [| done]. apply Qeq_bool_iff in E. lra. }
    rewrite Hnz. cbn [round64].
    apply b64_above; [by vm_compute | done |]. rewrite Qred_correct.
    apply Qle_shift_div_l; [done | lra].
  - (* an infinite quantity *)
    unfold div64. cbn [num_div].
    assert (Hle : Qle_bool 0 a = true) by (apply Qle_bool_iff; lra).
    by rewrite Hle.
  - unfold spike64, num_gtb in Hsp. by destruct (mul64 (Fin 3) (Fin a)).
  - unfold spike64, num_gtb in Hsp. by destruct (mul64 (Fin 3) (Fin a)).
Qed.

(** X23.  What the machine's threshold test lets through passes the exact
    test of the analysis: for a binary64 quantity and a positive average,
    [DELIV_QTY > 3 * AVG_30_DELIV_QTY] with the product rounded implies the
    comparison with the exact product. *)
Theorem machine_threshold_implies_exact s q a :
  round64 (Fin q) = Fin q -> (0 < a)%Q ->
  spike64 (Fin q) (Fin a) = true ->
  spike {| m_SYMBOL := s; m_DELIV_QTY := Fin q; m_AVG_30_DELIV_QTY := Fin a |} = true.
Proof.
  intros Hq Ha Hsp. unfold spike, num_gtb. cbn [m_DELIV_QTY m_AVG_30_DELIV_QTY num_mul].
  apply num_ltb_Fin. rewrite Qred_correct. by apply spike64_exact.
Qed.

End Binary64.

(** ** Labels and links *)

Section Labels.

Local Ltac by_cases_on_char c :=
  destruct c as [[] [] [] [] [] [] [] []]; vm_compute; (reflexivity || tauto || congruence).

Lemma label_char_idem c : label_char (label_char c) = label_char c.
Proof. by_cases_on_char c. Qed.

Lemma label_char_normal c : normal_char (label_char c) = true.
Proof. by_cases_on_char c. Qed.

Lemma label_char_space c : is_space c = false -> is_space (label_char c) = false.
Proof. by_cases_on_char c. Qed.

Lemma normalize_label_map s :
  normalize_label s = string_map label_char (str_strip s).
Proof.
  unfold normalize_label. induction (str_strip s) as [| c t IH]; simpl; [done |].
  by rewrite IH.
Qed.

Lemma lstrip_clean s : starts_clean s = true -> lstrip s = s.
Proof. destruct s as [| c s]; simpl; [done |]. by destruct (is_space c). Qed.

Lemma rstrip_clean s : ends_clean s = true -> rstrip s = s.
Proof.
  induction s as [| c s IH]; simpl; [done |].
  destruct s as [| c' s']; simpl in *.
  - by destruct (is_space c).
  - intros H. by rewrite (IH H).
Qed.

Lemma lstrip_starts_clean s : starts_clean (lstrip s) = true.
Proof.
  induction s as [| c s IH]; simpl; [done |].
  destruct (is_space c) eqn:E; [done |]. simpl. by rewrite E.
Qed.

Lemma rstrip_ends_clean s : ends_clean (rstrip s) = true.
Proof.
  induction s as [| c s IH]; simpl; [done |].
  destruct (rstrip s) as [| c' t] eqn:E.
  - destruct (is_space c) eqn:Ec; simpl; [done | by rewrite Ec].
  - exact IH.
Qed.

Lemma rstrip_starts_clean s : starts_clean s = true -> starts_clean (rstrip s) = true.
Proof.
  destruct s as [| c s]; simpl; [done |].
  destruct (is_space c) eqn:Ec; simpl; [done |]. intros _.
  destruct (rstrip s); simpl; by rewrite Ec.
Qed.

Lemma str_strip_clean s :
  starts_clean (str_strip s) = true /\ ends_clean (str_strip s) = true.
Proof.
  unfold str_strip. split.
  - apply rstrip_starts_clean, lstrip_starts_clean.
  - apply rstrip_ends_clean.
Qed.

Lemma string_map_starts_clean s :
  starts_clean s = true -> starts_clean (string_map label_char s) = true.
Proof.
  destruct s as [| c s]; simpl; [done |]. intros Hc.
  apply negb_true_iff in Hc. by rewrite label_char_space.
Qed.

Lemma string_map_ends_clean s :
  ends_clean s = true -> ends_clean (string_map label_char s) = true.
Proof.
  induction s as [| c s IH]; simpl; [done |].
  destruct s as [| c' s']; simpl in *.
  - intros Hc. apply negb_true_iff in Hc. by rewrite label_char_space.
  - exact IH.
Qed.

Lemma string_map_idem s :
  string_map label_char (string_map label_char s) = string_map label_char s.
Proof.
  induction s as [| c s IH]; simpl; [done |]. by rewrite label_char_idem, IH.
Qed.

Lemma string_map_normal s :
  string_forall normal_char (string_map label_char s) = true.
Proof.
  induction s as [| c s IH]; simpl; [done |]. by rewrite label_char_normal, IH.
Qed.

Lemma label_char_ascii c : is_ascii c = true -> is_ascii (label_char c) = true.
Proof. by_cases_on_char c. Qed.

Lemma lstrip_forall p s :
  string_forall p s = true -> string_forall p (lstrip s) = true.
Proof.
  induction s as [| c s IH]; simpl; [done |]. intros H.
  destruct (is_space c); [| done].
  apply andb_true_iff in H as [_ H]. by apply IH.
Qed.

Lemma rstrip_forall p s :
  string_forall p s = true -> string_forall p (rstrip s) = true.
Proof.
  induction s as [| c s IH]; simpl; [done |]. intros H.
  apply andb_true_iff in H as [Hc H]. specialize (IH H).
  destruct (rstrip s) as [| c' t].
  - destruct (is_space c); simpl; [done | by rewrite Hc].
  - simpl in *. by rewrite Hc, IH.
Qed.

Lemma string_map_ascii s :
  ascii_text s = true -> ascii_text (string_map label_char s) = true.
Proof.
  unfold ascii_text. induction s as [| c s IH]; simpl; [done |]. intros H.
  apply andb_true_iff in H as [Hc H]. by rewrite label_char_ascii, IH.
Qed.

(** X17.  The normalised form of an ASCII label is ASCII and in normal
    form: normalising it again changes nothing, it has no blank at either
    end, no space and no lower-case letter. *)
Theorem normalize_label_normal_form s :
  ascii_text s = true ->
  ascii_text (normalize_label s) = true /\
  normalize_label (normalize_label s) = normalize_label s /\
  str_strip (normalize_label s) = normalize_label s /\
  string_forall normal_char (normalize_label s) = true.
Proof.
  intros Hascii.
  destruct (str_strip_clean s) as [Hs He].
  assert (Hstrip : str_strip (normalize_label s) = normalize_label s).
  { rewrite normalize_label_map. unfold str_strip at 1.
    rewrite lstrip_clean by (by apply string_map_starts_clean).
    by apply rstrip_clean, string_map_ends_clean. }
  split; [| split; [| split; [done |]]].
  - rewrite normalize_label_map. apply string_map_ascii.
    unfold str_strip, ascii_text. by apply rstrip_forall, lstrip_forall.
  - rewrite (normalize_label_map (normalize_label s)), Hstrip.
    rewrite normalize_label_map. apply string_map_idem.
  - rewrite normalize_label_map. apply string_map_normal.
Qed.

Lemma append_inj_l (p a b : string) : p +:+ a = p +:+ b -> a = b.
Proof. induction p as [| c p IH]; simpl; [done |]. intros [= H]. by apply IH. Qed.

Lemma append_length (a b : string) :
  String.length (a +:+ b) = (String.length a + String.length b)%nat.
Proof. induction a as [| c a IH]; simpl; [done |]. by rewrite IH. Qed.

Lemma append_inj_length (a b c d : string) :
  String.length a = String.length b -> a +:+ c = b +:+ d -> a = b.
Proof.
  revert b. induction a as [| x a IH]; intros [| y b]; simpl; try done.
  intros [= Hlen] [= -> Happ]. f_equal. by apply IH.
Qed.

(** X18.  The link keeps the symbol: two symbols with the same report cell
    are the same symbol. *)
Theorem hyperlink_inj x y : hyperlink x = hyperlink y -> x = y.
Proof.
  unfold hyperlink. intros H.
  repeat (apply append_inj_l in H).
  assert (Hlen : String.length x = String.length y).
  { apply (f_equal String.length) in H. rewrite !append_length in H.
    simpl in H. lia. }
  by apply (append_inj_length _ _ _ _ Hlen H).
Qed.

End Labels.

(** ** The index list *)

Section IndexList.

Variable file : Type.
Variable read_csv : file -> result frame.
Variable to_csv : frame -> file.
Variable to_datetime : cell -> result date.

Lemma in_symbol_texts s cells : In s (symbol_texts cells) <-> In (CStr s) cells.
Proof.
  unfold symbol_texts. rewrite <- !list_elem_of_In, list_elem_of_omap. split.
  - intros (c & Hc & Hs). destruct c; try done. by injection Hs as ->.
  - intros Hc. by exists (CStr s).
Qed.

(** X19.  An index list with ASCII labels none of which is [SYMBOL] (after
    strip and upper case) stops the script there: nothing is asked of the
    archive and the log folder is not touched. *)
Theorem index_list_without_symbol_column_stops_the_script
    index_list raw today archive w :
  read_csv (text index_list) = Ok raw ->
  ascii_labels raw = true ->
  count_label "SYMBOL" (map upper_strip (columns raw)) = 0%nat ->
  script read_csv to_csv to_datetime index_list today archive w =
    (IndexListFailed NoSymbolColumn, w).
Proof.
  intros Hraw _ Hc. unfold script, get_nifty500_symbols, column_tolist.
  rewrite Hraw. simpl. by rewrite Hc.
Qed.

(** X20.  With ASCII labels and one [SYMBOL] label among them in the list,
    a record is kept by the index filter exactly when its symbol stands,
    character for character, in that column of the list: the values are not
    stripped, and the status of the answer plays no part. *)
Theorem record_in_universe_iff_listed status body raw cells r s :
  read_csv body = Ok raw ->
  ascii_labels raw = true ->
  get_nifty500_symbols read_csv {| status_code := status; text := body |} = inr cells ->
  symbol_of r = Some s ->
  isin (symbol_texts cells) r = true <->
  exists listed, In listed (rows raw) /\
                 row_get "SYMBOL" (upper_strip_row listed) = Some (CStr s).
Proof.
  intros Hraw _ Hget Hs. unfold get_nifty500_symbols, column_tolist in Hget.
  simpl in Hget. rewrite Hraw in Hget. simpl in Hget.
  destruct (count_label "SYMBOL" (map upper_strip (columns raw))) as [| [| n]];
    [done | | done].
  injection Hget as <-. rewrite isin_iff. split.
  - intros (s' & Hs' & Hin). rewrite Hs in Hs'. injection Hs' as <-.
    apply in_symbol_texts, in_map_iff in Hin as (r0 & Hr0 & Hin).
    apply in_map_iff in Hin as (listed & <- & Hin).
    exists listed. split; [done |].
    by destruct (row_get "SYMBOL" (upper_strip_row listed)) as [c |]; simpl in Hr0;
      [subst c |].
  - intros (listed & Hin & Hget). exists s. split; [done |].
    apply in_symbol_texts, in_map_iff. exists (upper_strip_row listed).
    split; [by rewrite Hget | by apply in_map].
Qed.

End IndexList.

(** ** A second run, and averages side by side *)

Section Rerun.

Variable file : Type.
Variable read_csv : file -> result frame.
Variable to_csv : frame -> file.
Variable to_datetime : cell -> result date.

Local Abbreviation fetch_all' := (fetch_all file read_csv to_csv to_datetime).

Lemma fetch_all_cached archive ds : forall w res w',
  (forall d, In d ds -> files w !! d <> None) ->
  fetch_all' archive ds w = (res, w') -> w' = w.
Proof.
  induction ds as [| d ds IH]; intros w res w' Hall; simpl.
  - by intros [= _ <-].
  - unfold get_delivery_data.
    destruct (files w !! d) as [f |] eqn:Hf;
      [| by destruct (Hall d (or_introl eq_refl))].
    assert (Hrest : forall res2 w2, fetch_all' archive ds w = (res2, w2) -> w2 = w).
    { intros res2 w2. apply IH. intros d0 Hd0. apply Hall. by right. }
    destruct (load_from_disk file read_csv to_datetime f) as [df | e]; simpl.
    + destruct (fetch_all' archive ds w) as [[rest | e] w2] eqn:Hf2;
        intros [= _ <-]; by eapply Hrest.
    + by intros [= _ <-].
Qed.

(** X21.  After a download loop that completed over pairwise distinct days,
    each of them already on file or served by the archive, running the loop
    again over the same days changes nothing: no request is made and no
    file is written, whatever the archive would answer by then. *)
Theorem second_run_leaves_the_world_alone archive ds w all_data w1 :
  NoDup ds ->
  fetch_all file read_csv to_csv to_datetime archive ds w = (Ok all_data, w1) ->
  (forall d, In d ds -> files w !! d <> None \/ status_code (archive d) = 200) ->
  forall archive' res w2, fetch_all file read_csv to_csv to_datetime archive' ds w1 = (res, w2) -> w2 = w1.
Proof.
  intros Hnd Hrun Hserved archive' res w2. apply fetch_all_cached.
  intros d Hd Hnone.
  pose proof (proj1 (fetch_all_cached_after _ _ _ _ archive ds
                       w all_data w1 Hnd Hrun d Hd) Hnone) as [Hf Hs].
  destruct (Hserved d Hd); congruence.
Qed.

End Rerun.

Section SideBySide.

Lemma values_of_app s df extra :
  values_of s (df ++ extra) = values_of s df ++ values_of s extra.
Proof. unfold values_of. by rewrite List.filter_app, map_app. Qed.

Lemma present_app l1 l2 : present (l1 ++ l2) = present l1 ++ present l2.
Proof. unfold present. apply List.filter_app. Qed.

Lemma present_all_missing l : forallb is_nan l = true -> present l = [].
Proof.
  unfold present. induction l as [| v l IH]; simpl; [done |].
  intros H. apply andb_true_iff in H as [-> H]. simpl. by apply IH.
Qed.

(** X22.  The average of a symbol that has records is the same when rows are
    added that are records of other symbols, or records of the symbol without
    a quantity: the first are not in its group and the second count neither
    in the sum nor in the number of values. *)
Theorem average_ignores_other_rows s df extra :
  List.filter (has_symbol s) df <> [] ->
  forallb (fun r => negb (has_symbol s r) || is_nan (deliv_qty_of r)) extra = true ->
  groupby_mean (df ++ extra) !! s = groupby_mean df !! s.
Proof.
  intros Hin Hextra. rewrite !groupby_mean_lookup.
  rewrite List.filter_app.
  destruct (List.filter (has_symbol s) df) as [| r rs] eqn:Hf; [done |]. simpl.
  f_equal. unfold spec_avgDeliveredQty, nanmean.
  rewrite values_of_app, present_app.
  rewrite (present_all_missing (values_of s extra)); [by rewrite app_nil_r |].
  unfold values_of. clear -Hextra.
  induction extra as [| x extra IH]; simpl in *; [done |].
  apply andb_true_iff in Hextra as [Hx Hextra].
  destruct (has_symbol s x); simpl in *; [by rewrite Hx, IH | by apply IH].
Qed.

End SideBySide.

(** ** The further properties at the samples *)

Lemma sample_days_NoDup : NoDup sample_days.
Proof.
  assert (H : get_last_trading_days 30 739924 = Ok sample_days)
    by (vm_compute; reflexivity).
  apply get_last_trading_days_sound in H as (_ & Hs & _); [| lia].
  by apply StronglySorted_lt_NoDup.
Qed.

Lemma log_folder_is_append_only_witness :
  files (snd rerun_on_one_file) !! 739923 = Some (sample_to_csv fetched_frame).
Proof.
  refine (proj1 (log_folder_is_append_only frame sample_read_csv sample_to_csv
                   sample_to_datetime sample_archive sample_days (snd first_fetch)
                   (fst rerun_on_one_file) (snd rerun_on_one_file) _) 739923 _ _).
  - symmetry. apply surjective_pairing.
  - vm_compute. reflexivity.
Defined.

Lemma fetch_all_requests_witness :
  requests (snd sample_run) =
    requests empty_folder ++
    flat_map download_requests (List.filter (uncached empty_folder) sample_days).
Proof.
  refine (fetch_all_requests frame sample_read_csv sample_to_csv sample_to_datetime
            sample_archive sample_days empty_folder sample_all_data (snd sample_run)
            sample_days_NoDup _).
  vm_compute. reflexivity.
Defined.

Lemma requested_days_cached_iff_served_witness :
  (files (snd sample_run) !! 739923 = None <->
   files empty_folder !! 739923 = None /\ status_code (sample_archive 739923) <> 200) /\
  (files (snd sample_run) !! 739922 = None <->
   files empty_folder !! 739922 = None /\ status_code (sample_archive 739922) <> 200).
Proof.
  assert (H : fetch_all frame sample_read_csv sample_to_csv sample_to_datetime
                sample_archive sample_days empty_folder
              = (Ok sample_all_data, snd sample_run)) by (vm_compute; reflexivity).
  split;
    refine (requested_days_cached_iff_served frame sample_read_csv sample_to_csv
              sample_to_datetime sample_archive sample_days empty_folder
              sample_all_data (snd sample_run) _ sample_days_NoDup H _);
    vm_compute; tauto.
Defined.

Lemma failed_fetch_is_absorbed_witness :
  get_delivery_data frame sample_read_csv sample_to_csv sample_to_datetime
    sample_archive 739923 empty_folder =
    (Ok None, {| files := files empty_folder;
                 requests := requests empty_folder ++ download_requests 739923 |}).
Proof.
  refine (failed_fetch_is_absorbed frame sample_read_csv sample_to_csv
            sample_to_datetime sample_archive 739923 empty_folder _ _).
  - reflexivity.
  - vm_compute. discriminate.
Defined.

Lemma missing_quantity_column_raises_KeyError_witness :
  get_delivery_data frame sample_read_csv sample_to_csv sample_to_datetime
    archive_without_quantity 739923 empty_folder =
    (Raise KeyError,
     {| files := files empty_folder;
        requests := requests empty_folder ++ download_requests 739923 |}).
Proof.
  refine (missing_quantity_column_raises_KeyError frame sample_read_csv sample_to_csv
            sample_to_datetime archive_without_quantity 739923 empty_folder
            body_without_quantity _ _ _ _ _).
  - reflexivity.
  - reflexivity.
  - reflexivity.
  - reflexivity.
  - left. vm_compute. reflexivity.
Defined.

Lemma download_coerces_quantities_witness :
  exists df,
    get_delivery_data frame sample_read_csv sample_to_csv sample_to_datetime
      full_archive 739923 empty_folder =
      (Ok (Some df),
       {| files := <[739923 := sample_to_csv df]> (files empty_folder);
          requests := requests empty_folder ++ download_requests 739923 |}) /\
    length (rows df) = length (rows (sample_body " 1000")) /\
    Forall (fun r =>
              Forall (fun c => is_number c = true)
                (cells_under "DELIV_QTY" r ++ cells_under "TTL_TRD_QNTY" r))
           (rows df).
Proof.
  refine (download_coerces_quantities frame sample_read_csv sample_to_csv
            sample_to_datetime full_archive 739923 empty_folder
            (sample_body " 1000") _ _ _ _ _ _);
    vm_compute; reflexivity.
Defined.

Lemma download_passes_other_fields_through_witness :
  exists df w',
    get_delivery_data frame sample_read_csv sample_to_csv sample_to_datetime
      full_archive 739923 empty_folder = (Ok (Some df), w') /\
    columns df =
      (if has_label "DATE" (map normalize_label (columns (sample_body " 1000")))
       then map normalize_label (columns (sample_body " 1000"))
       else map normalize_label (columns (sample_body " 1000")) ++ ["DATE"]) /\
    forall k, k <> "DELIV_QTY" -> k <> "TTL_TRD_QNTY" -> k <> "DATE" ->
      map (cells_under k) (rows df) =
      map (fun r => cells_under k (normalize_row r)) (rows (sample_body " 1000")).
Proof.
  refine (download_passes_other_fields_through frame sample_read_csv sample_to_csv
            sample_to_datetime full_archive 739923 empty_folder
            (sample_body " 1000") _ _ _ _ _ _);
    vm_compute; reflexivity.
Defined.

Lemma total_outage_gives_no_data_witness :
  main frame sample_read_csv sample_to_csv sample_to_datetime
    ["X"] 739924 dead_archive empty_folder =
    (Ok NoDeliveryData,
     {| files := files empty_folder;
        requests := requests empty_folder ++ flat_map download_requests sample_days |}).
Proof.
  refine (total_outage_gives_no_data frame sample_read_csv sample_to_csv
            sample_to_datetime ["X"] 739924 dead_archive empty_folder sample_days _ _).
  - vm_compute. reflexivity.
  - intros d _. split; [reflexivity | vm_compute; discriminate].
Defined.

Lemma report_rows_are_breakouts_witness :
  last sample_days = Some 739923 /\
  [with_hyperlink sample_candidate] <> [] /\
  Forall (fun row =>
            (exists s, In s ["X"] /\ SYMBOL row = hyperlink s) /\
            num_gtb (DELIV_QTY row)
                    (num_mul (Fin 3) (AVG_30_DELIV_QTY row)) = true /\
            is_nan (DELIV_QTY row) = false /\
            is_nan (AVG_30_DELIV_QTY row) = false)
         [with_hyperlink sample_candidate].
Proof.
  refine (report_rows_are_breakouts ["X"] window_3500 sample_days 739923
            [with_hyperlink sample_candidate] _).
  vm_compute. reflexivity.
Defined.

(** 161 against 40: the quotient 4.025 is not a binary64 number, the
    nearest one lies above it, and the ratio is 4.03 (the binary64 number
    nearest to 4.03), where the exact quotient, a tie, would go to the even
    side, 4.02. *)
Lemma reported_ratio_is_at_least_three_witness :
  ratio64 (Fin 161) (Fin 40) = round64 (Fin 4.03) /\
  num_leb (Fin 3) (ratio64 (Fin 161) (Fin 40)) = true.
Proof.
  split; [by vm_compute |].
  refine (reported_ratio_is_at_least_three (Fin 161) (Fin 40) _ _ _);
    vm_compute; reflexivity.
Defined.

Lemma normalize_label_normal_form_witness :
  normalize_label untidy_label = "DELIV_QTY" /\
  ascii_text (normalize_label untidy_label) = true /\
  normalize_label (normalize_label untidy_label) = normalize_label untidy_label /\
  str_strip (normalize_label untidy_label) = normalize_label untidy_label /\
  string_forall normal_char (normalize_label untidy_label) = true.
Proof.
  split; [vm_compute; reflexivity |].
  refine (normalize_label_normal_form untidy_label _).
  vm_compute. reflexivity.
Defined.

(** 3001 shares against an average of 1000.25: the product 3000.75 is a
    binary64 number, and both tests pass. *)
Lemma machine_threshold_implies_exact_witness :
  spike64 (Fin 3001) (Fin 1000.25) = true /\
  spike {| m_SYMBOL := "X"; m_DELIV_QTY := Fin 3001;
           m_AVG_30_DELIV_QTY := Fin 1000.25 |} = true.
Proof.
  assert (H : spike64 (Fin 3001) (Fin 1000.25) = true) by (vm_compute; reflexivity).
  split; [exact H |].
  refine (machine_threshold_implies_exact "X" 3001 1000.25 _ _ H).
  - vm_compute. reflexivity.
  - reflexivity.
Defined.

Lemma index_list_is_a_set_witness :
  ranked 739923 (universe_rows ["C"; "X"; "X"] window_zero) =
  ranked 739923 (universe_rows ["X"; "C"] window_zero).
Proof.
  refine (index_list_is_a_set ["C"; "X"; "X"] ["X"; "C"] window_zero 739923 _).
  intros s. simpl. tauto.
Defined.

Lemma hyperlink_inj_witness : "X" = "X".
Proof. exact (hyperlink_inj "X" "X" eq_refl). Defined.

Lemma index_list_without_symbol_column_stops_the_script_witness :
  script sample_read_csv sample_to_csv sample_to_datetime
    broken_index_list 739924 sample_archive empty_folder =
    (IndexListFailed NoSymbolColumn, empty_folder).
Proof.
  refine (index_list_without_symbol_column_stops_the_script frame sample_read_csv
            sample_to_csv sample_to_datetime broken_index_list (text broken_index_list)
            739924 sample_archive empty_folder _ _ _).
  - reflexivity.
  - reflexivity.
  - vm_compute. reflexivity.
Defined.

Lemma record_in_universe_iff_listed_witness :
  (isin (symbol_texts [CStr "X"; CStr " Y"]) (record_row "X" (Fin 1) 739923) = true <->
   exists listed, In listed (rows (text sample_index_list)) /\
                  row_get "SYMBOL" (upper_strip_row listed) = Some (CStr "X")) /\
  (isin (symbol_texts [CStr "X"; CStr " Y"]) (record_row "Y" (Fin 1) 739923) = true <->
   exists listed, In listed (rows (text sample_index_list)) /\
                  row_get "SYMBOL" (upper_strip_row listed) = Some (CStr "Y")).
Proof.
  split;
    refine (record_in_universe_iff_listed frame sample_read_csv 503
              (text sample_index_list) (text sample_index_list)
              [CStr "X"; CStr " Y"] _ _ _ _ _ _);
    vm_compute; reflexivity.
Defined.

Lemma second_run_leaves_the_world_alone_witness :
  NoDup sample_days /\
  forall archive' res w2,
    fetch_all frame sample_read_csv sample_to_csv sample_to_datetime
      archive' sample_days (snd full_run) = (res, w2) ->
    w2 = snd full_run.
Proof.
  split; [exact sample_days_NoDup |].
  refine (second_run_leaves_the_world_alone frame sample_read_csv sample_to_csv
            sample_to_datetime full_archive sample_days empty_folder full_all_data
            (snd full_run) sample_days_NoDup _ _).
  - vm_compute. reflexivity.
  - intros d _. right. reflexivity.
Defined.

Lemma average_ignores_other_rows_witness :
  groupby_mean
    (concat window_3500 ++
       [record_row "Y" (Fin 5) 739923; record_row "X" NaN 739923]) !! "X" =
  groupby_mean (concat window_3500) !! "X".
Proof.
  refine (average_ignores_other_rows "X" (concat window_3500)
            [record_row "Y" (Fin 5) 739923; record_row "X" NaN 739923] _ _).
  - vm_compute. discriminate.
  - vm_compute. reflexivity.
Defined.

(** The symbol [Y] of the list has a blank in front in the list and none in
    the records: the record is not in the index. *)
Example listed_with_a_blank_is_not_matched :
  get_nifty500_symbols sample_read_csv sample_index_list = inr [CStr "X"; CStr " Y"] /\
  isin (symbol_texts [CStr "X"; CStr " Y"]) (record_row "Y" (Fin 1) 739923) = false.
Proof. split; vm_compute; reflexivity. Qed.
